(** * Round/stage coordination of the swarm trainer

    A shallow embedding of [hivemind_exp/trainer/hivemind_grpo_trainer.py]:
    the coordinator and follower loops, the stage runner with its retry
    policy, the loss hook that publishes to the DHT and the leaderboard
    builder.  Effects are explicit: every function is a state transformer
    on a [world] that also returns the list of events it performed, in
    order, and either a value, a raised exception or fuel exhaustion.

    What can raise in the model is what the control flow of the source
    depends on: [stage.datasets_fn], [trainer.train()],
    [trainer.push_to_hub], [get_round_and_stage], [time.sleep] of a negative
    length, the lookup of the question in [node.outputs], the [assert] on
    [config.distributed_state] and the use of a local name that was never
    bound.  The other calls to collaborators (the writes to the store,
    saving, logging, the accelerator caches) are recorded as events.  A
    call of [trainer.train()] is one event of the stage runner; the loss
    hook that the library runs inside it is modelled as a function of its
    own, [compute_loss]. *)

From Stdlib Require Import ZArith QArith Lqa List String Sorted Permutation Lia Bool.
From stdpp Require Import gmap strings sorting.
Import ListNotations.

Close Scope Q_scope.
Local Open Scope Z_scope.

(** ** Constants of the module *)

Definition MAX_TRAIN_FAILS : nat := 5.
Definition CADENCE_OF_UPDATE_STEPS : Z := 4.

(** ** Exceptions

    The Python exceptions that the control flow distinguishes.  All of them
    are subclasses of [Exception]. *)

Inductive exn : Type :=
| BlockingIOError
| EOFError
| DatasetGenerationError
| UnboundLocalError
| KeyError
| ValueError
| AssertionError
| OtherError (tag : nat).

(** The clause [except (BlockingIOError, EOFError)]. *)
Definition is_transient (e : exn) : bool :=
  match e with
  | BlockingIOError | EOFError => true
  | _ => false
  end.

(** The clause [except datasets.exceptions.DatasetGenerationError]. *)
Definition is_dataset_generation (e : exn) : bool :=
  match e with
  | DatasetGenerationError => true
  | _ => false
  end.

(** ** Numbers

    Durations, clock readings and the node's own rewards are Python floats;
    they are modelled by exact rationals, on which the source only compares,
    adds, doubles and takes a minimum. *)

Definition Qlt_bool (x y : Q) : bool := negb (Qle_bool y x).

(** A reward read back from the store is whatever float a peer has stored:
    a finite value, an infinity or NaN.  Finite floats compare as the
    numbers they denote. *)
Inductive pyfloat : Type :=
| Finite (q : Q)
| PosInf
| NegInf
| NaN.

(** [x == y] on floats: NaN is equal to nothing, not even to NaN. *)
Definition float_eq (x y : pyfloat) : bool :=
  match x, y with
  | Finite p, Finite q => Qeq_bool p q
  | PosInf, PosInf => true
  | NegInf, NegInf => true
  | _, _ => false
  end.

(** [x < y] on floats: false as soon as one side is NaN. *)
Definition float_lt (x y : pyfloat) : bool :=
  match x, y with
  | Finite p, Finite q => Qlt_bool p q
  | NegInf, Finite _ => true
  | NegInf, PosInf => true
  | Finite _, PosInf => true
  | _, _ => false
  end.

(** [math.isnan(x)]. *)
Definition is_nan (x : pyfloat) : bool :=
  match x with
  | NaN => true
  | _ => false
  end.

(** [min(a, b)]: the first argument unless the second is strictly smaller. *)
Definition py_min (a b : Q) : Q := if Qlt_bool b a then b else a.

(** [sum(xs)]: left to right from [0]. *)
Definition py_sum (xs : list Q) : Q := fold_left Qplus xs (0%Q).

(** [l[start:]] with Python's treatment of a negative start. *)
Definition py_slice_from {A : Type} (l : list A) (start : Z) : list A :=
  let n := Z.of_nat (length l) in
  let s := if start <? 0 then Z.max 0 (n + start) else start in
  skipn (Z.to_nat s) l.

(** ** The distributed store: keys, values, events *)

(** Modelled from the spec: the key builders of [hivemind_exp.dht_utils]
    ([ROUND_STAGE_NUMBER_KEY], [rewards_key], [leaderboard_key],
    [node_outputs_key]) are imported by the trainer and are not part of this
    file; the logical key space of the spec is kept symbolic. *)
Inductive dht_key : Type :=
| ROUND_STAGE_NUMBER_KEY
| rewards_key (r s : Z)
| leaderboard_key (r s : Z)
| node_outputs_key (node_key : string).

Inductive dht_value : Type :=
| VPointer (r s : Z)
| VLeaderboard (entries : list (string * pyfloat))
| VOutputs (timestamp : Q) (payload : gmap string string)
| VReward (x : Q).

(** Calls to collaborators whose results the trainer does not inspect. *)
Inductive ext_call : Type :=
| super_compute_loss
| get_visible_maddrs
| create_publishing_trainer
| log_metrics | save_metrics | save_state | save_model
| wait_for_everyone | save_pretrained
| push_to_hub
| gc_collect
| cuda_empty_cache | cuda_ipc_collect | mps_empty_cache | xpu_empty_cache
| clear_stage_cache
| wandb_finish
| destroy_process_group
| print_system_info.

Inductive log_msg : Type :=
| LogCantRetrieve (r s : Z)
| LogTraining (r s : Z)
| LogFinished (r s : Z)
| LogPushing
| LogPushFailed
| LogDHTIPCError (e : exn)
| LogSavingModel
| LogModelSaved
| LogTokenizerSaved
| LogStartingRound (r : Z)
| LogTimedOut
| LogCouldNotFetch (e : exn)
| LogJoining (r s : Z)
| LogReattempt
| LogAlreadyFinished (r : Z) (backoff : Q)
| LogException.

Inductive event : Type :=
| EStore (key : dht_key) (subkey : option string) (value : dht_value)
         (expiration_time : Q)
| EGetValue (key : dht_key)
| EGetRoundAndStage
| EDatasetsFn (r s : Z)
| ETrain (r s : Z)
| EPutStageOutputs (r s : Z) (q_hash : string) (timestamp : Q)
                   (payload : gmap string string)
| ESleep (d : Q)
| ELog (m : log_msg)
| ECall (c : ext_call).

(** ** Static configuration and the environment *)

(** One entry of [stage_data.stages].  [datasets_fn n r s] is the outcome of
    the [n]-th environment interaction being [stage.datasets_fn(r, s)]:
    [None] when the datasets are returned, [Some e] when [e] is raised. *)
Record Stage : Type := {
  datasets_fn : nat -> Z -> Z -> option exn
}.

(** The fields of [self], [self.node], [self.stage_data] and [self.config]
    that are fixed for a run, and the availability of the accelerator
    back ends ([xpu_available = None]: [torch.xpu] is missing). *)
Record HivemindGRPOTrainer : Type := {
  node_key : string;
  is_coordinator : bool;
  out_expiration : Q;
  stages : list Stage;
  max_rounds : Z;
  train_timeout : Q;
  push_to_hub_token : option string;
  distributed_state : bool;
  wandb_run : bool;
  cuda_available : bool;
  mps_available : bool;
  xpu_available : option bool
}.

(** What the world outside answers.  Every answer is indexed by the number
    of interactions so far, so that a call may answer differently each
    time. *)
Record Env : Type := {
  monotonic : nat -> Q;
  get_dht_time : nat -> Q;
  time_time : nat -> Q;
  get_dht_value : nat -> dht_key -> option (list (string * pyfloat));
  get_round_and_stage : nat -> exn + (Z * Z);
  trainer_train : nat -> option exn;
  trainer_push_to_hub : nat -> option exn;
  md5_hexdigest : string -> string
}.

(** ** Mutable state *)

Record world : Type := {
  tick : nat;
  node_round_num : Z;
  node_stage_num : Z;
  node_outputs : gmap string string;
  node_rewards : list Q;
  self_stage_rewards : Q;
  state_global_step : Z;
  dist_initialized : bool
}.

Definition next_tick (w : world) : world :=
  {| tick := S (tick w);
     node_round_num := node_round_num w;
     node_stage_num := node_stage_num w;
     node_outputs := node_outputs w;
     node_rewards := node_rewards w;
     self_stage_rewards := self_stage_rewards w;
     state_global_step := state_global_step w;
     dist_initialized := dist_initialized w |}.

Definition with_round_num (r : Z) (w : world) : world :=
  {| tick := tick w;
     node_round_num := r;
     node_stage_num := node_stage_num w;
     node_outputs := node_outputs w;
     node_rewards := node_rewards w;
     self_stage_rewards := self_stage_rewards w;
     state_global_step := state_global_step w;
     dist_initialized := dist_initialized w |}.

Definition with_stage_num (s : Z) (w : world) : world :=
  {| tick := tick w;
     node_round_num := node_round_num w;
     node_stage_num := s;
     node_outputs := node_outputs w;
     node_rewards := node_rewards w;
     self_stage_rewards := self_stage_rewards w;
     state_global_step := state_global_step w;
     dist_initialized := dist_initialized w |}.

Definition with_stage_rewards (x : Q) (w : world) : world :=
  {| tick := tick w;
     node_round_num := node_round_num w;
     node_stage_num := node_stage_num w;
     node_outputs := node_outputs w;
     node_rewards := node_rewards w;
     self_stage_rewards := x;
     state_global_step := state_global_step w;
     dist_initialized := dist_initialized w |}.

Definition with_dist_initialized (b : bool) (w : world) : world :=
  {| tick := tick w;
     node_round_num := node_round_num w;
     node_stage_num := node_stage_num w;
     node_outputs := node_outputs w;
     node_rewards := node_rewards w;
     self_stage_rewards := self_stage_rewards w;
     state_global_step := state_global_step w;
     dist_initialized := b |}.

(** ** The effect monad *)

Inductive result (A : Type) : Type :=
| Ok (a : A)
| Raise (e : exn)
| OutOfFuel.
Arguments Ok {A} a.
Arguments Raise {A} e.
Arguments OutOfFuel {A}.

Definition M (A : Type) : Type := world -> result A * world * list event.

Definition ret {A : Type} (a : A) : M A := fun w => (Ok a, w, []).

Definition bind {A B : Type} (m : M A) (f : A -> M B) : M B := fun w =>
  match m w with
  | (Ok a, w1, t1) => let '(r, w2, t2) := f a w1 in (r, w2, t1 ++ t2)
  | (Raise e, w1, t1) => (Raise e, w1, t1)
  | (OutOfFuel, w1, t1) => (OutOfFuel, w1, t1)
  end.

Declare Scope trainer_scope.
Delimit Scope trainer_scope with trainer.
Notation "x <- m ;; k" := (bind m (fun x => k))
  (at level 100, m at next level, right associativity) : trainer_scope.
Notation "m ;; k" := (bind m (fun _ => k))
  (at level 100, right associativity) : trainer_scope.
Local Open Scope trainer_scope.

Definition raise {A : Type} (e : exn) : M A := fun w => (Raise e, w, []).
Definition out_of_fuel {A : Type} : M A := fun w => (OutOfFuel, w, []).
Definition emit (e : event) : M unit := fun w => (Ok tt, w, [e]).
Definition get_world : M world := fun w => (Ok w, w, []).
Definition modify (f : world -> world) : M unit := fun w => (Ok tt, f w, []).

(** One interaction with the environment. *)
Definition ask {A : Type} (oracle : nat -> A) : M A := fun w =>
  (Ok (oracle (tick w)), next_tick w, []).

(** [try: m  except <the e with h e = Some k>: k]. *)
Definition try_except {A : Type} (m : M A) (h : exn -> option (M A)) : M A :=
  fun w =>
    match m w with
    | (Raise e, w1, t1) =>
        match h e with
        | Some k => let '(r, w2, t2) := k w1 in (r, w2, t1 ++ t2)
        | None => (Raise e, w1, t1)
        end
    | other => other
    end.

(** [try: m  finally: f]. *)
Definition try_finally {A : Type} (m : M A) (f : M unit) : M A := fun w =>
  match m w with
  | (OutOfFuel, w1, t1) => (OutOfFuel, w1, t1)
  | (r, w1, t1) =>
      match f w1 with
      | (Ok _, w2, t2) => (r, w2, t1 ++ t2)
      | (Raise e, w2, t2) => (Raise e, w2, t1 ++ t2)
      | (OutOfFuel, w2, t2) => (OutOfFuel, w2, t1 ++ t2)
      end
  end.

Definition when (b : bool) (m : M unit) : M unit := if b then m else ret tt.

Definition call (c : ext_call) : M unit := emit (ECall c).
Definition log (m : log_msg) : M unit := emit (ELog m).

(** [time.sleep(d)]: a negative length is a [ValueError]. *)
Definition sleep (d : Q) : M unit :=
  if Qlt_bool d 0 then raise ValueError else emit (ESleep d).

Definition outcome {A : Type} (x : result A * world * list event) : result A :=
  fst (fst x).
Definition final {A : Type} (x : result A * world * list event) : world :=
  snd (fst x).
Definition events {A : Type} (x : result A * world * list event) : list event :=
  snd x.

(** ** Leaderboard order *)

(** [(a[1], a[0]) < (b[1], b[0])] on the key tuples of two items: the
    first components that are not [==] decide.  The rewards of two items of
    the snapshot are two float objects, so that the comparison of the first
    components is the comparison of their values, and a NaN reward is equal
    to no other: the tuples are then compared by [<] on the rewards, which
    is false. *)
Definition key_lt (a b : string * pyfloat) : bool :=
  if float_eq (snd a) (snd b)
  then String.ltb (fst a) (fst b)
  else float_lt (snd a) (snd b).

(** A stable ascending sort that only uses [<] on the keys, as [sorted]
    does.  When the keys are totally ordered every stable sort returns the
    same list.  When they are not (a NaN reward) the list returned depends
    on the comparisons made: [sorted] begins by looking for a run, so that
    a list on which [<] is false from each item to the one before it is
    taken to be in order and returned as it is, which is also what the
    insertion below returns. *)
Fixpoint insert_sorted (x : string * pyfloat) (l : list (string * pyfloat))
  : list (string * pyfloat) :=
  match l with
  | [] => [x]
  | y :: l' => if key_lt y x then y :: insert_sorted x l' else x :: l
  end.

Definition py_sorted (l : list (string * pyfloat)) : list (string * pyfloat) :=
  fold_right insert_sorted [] l.

(** [sorted(items, key=lambda t: (t[1], t[0]), reverse=True)]: reverse,
    sort stably, reverse again. *)
Definition py_sorted_reverse (l : list (string * pyfloat))
  : list (string * pyfloat) :=
  rev (py_sorted (rev l)).

(** The lists that the run detection of [sorted] takes to be in order: the
    test [<] fails from each item to the one before it. *)
Fixpoint is_run (l : list (string * pyfloat)) : bool :=
  match l with
  | x :: (y :: _) as l' => negb (key_lt y x) && is_run l'
  | _ => true
  end.

(** Truth value of [dict | None]. *)
Definition truthy {A : Type} (d : option (list A)) : bool :=
  match d with
  | Some (_ :: _) => true
  | _ => false
  end.

(** ** The trainer *)

Section Trainer.

Variable env : Env.
Variable self : HivemindGRPOTrainer.

(** [expiration_time=get_dht_time() + self.node.out_expiration]. *)
Definition expiration : M Q :=
  t <- ask (get_dht_time env) ;;
  ret (t + out_expiration self)%Q.

(** *** [PublishingGRPOTrainer.publish_leaderboard] *)

Definition publish_leaderboard : M unit :=
  w <- get_world ;;
  let r := node_round_num w in
  let s := node_stage_num w in
  emit (EGetValue (rewards_key r s)) ;;
  curr_rewards <- ask (fun n => get_dht_value env n (rewards_key r s)) ;;
  if truthy curr_rewards then
    let leaderboard :=
      py_sorted_reverse (match curr_rewards with Some d => d | None => [] end) in
    exp <- expiration ;;
    emit (EStore (leaderboard_key r s) None (VLeaderboard leaderboard) exp)
  else
    log (LogCantRetrieve r (s - 1)).

(** *** [PublishingGRPOTrainer.compute_loss] *)

Definition compute_loss : M unit :=
  call super_compute_loss ;;
  w <- get_world ;;
  (if state_global_step w mod CADENCE_OF_UPDATE_STEPS =? 0 then
     match node_outputs w !! "question"%string with
     | None => raise KeyError
     | Some question =>
         let q_hash := md5_hexdigest env question in
         now <- ask (time_time env) ;;
         exp <- expiration ;;
         emit (EStore (node_outputs_key (node_key self)) (Some q_hash)
                      (VOutputs now (node_outputs w)) exp) ;;
         emit (EPutStageOutputs (node_round_num w) (node_stage_num w) q_hash
                                now (node_outputs w)) ;;
         let total := (self_stage_rewards w + py_sum (node_rewards w))%Q in
         modify (with_stage_rewards total) ;;
         exp' <- expiration ;;
         emit (EStore (rewards_key (node_round_num w) (node_stage_num w))
                      (Some (node_key self)) (VReward total) exp')
     end
   else ret tt) ;;
  (if is_coordinator self then publish_leaderboard else ret tt).

(** *** [cleanup] *)

Definition cleanup : M unit :=
  call gc_collect ;;
  when (cuda_available self) (call cuda_empty_cache ;; call cuda_ipc_collect) ;;
  when (mps_available self) (call mps_empty_cache) ;;
  match xpu_available self with
  | Some true => call xpu_empty_cache
  | Some false | None => ret tt
  end ;;
  call clear_stage_cache ;;
  when (wandb_run self) (call wandb_finish) ;;
  w <- get_world ;;
  when (dist_initialized w)
       (call destroy_process_group ;; modify (with_dist_initialized false)).

(** *** [train_stage_and_save] *)

(** [trainer.train()], run while the node is at its current round and
    stage.  The whole call is one event of the stage runner, and the answer
    of the environment is how the call ends.  What the library does inside
    the call, the calls of the loss hook [compute_loss] included, is not
    part of this trace: the hook is the function [compute_loss] above, and
    its writes to the store are events of its own runs. *)
Definition train_step : M unit :=
  w <- get_world ;;
  emit (ETrain (node_round_num w) (node_stage_num w)) ;;
  r <- ask (trainer_train env) ;;
  match r with
  | None => ret tt
  | Some e => raise e
  end.

(** The [for _ in range(MAX_TRAIN_FAILS)] loop; the result says whether
    [train_result] was bound, that is, whether the loop left by [break]. *)
Fixpoint train_attempts (n : nat) : M bool :=
  match n with
  | O => ret false
  | S n' =>
      try_except (train_step ;; ret true)
        (fun e =>
           if is_transient e
           then Some (log (LogDHTIPCError e) ;;
                      cleanup ;;
                      sleep 5 ;;
                      train_attempts n')
           else None)
  end.

Definition train_stage_and_save : M unit :=
  bound <- train_attempts MAX_TRAIN_FAILS ;;
  (if bound : bool then ret tt else raise UnboundLocalError) ;;
  call log_metrics ;;
  call save_metrics ;;
  call save_state ;;
  log LogSavingModel ;;
  call save_model ;;
  log LogModelSaved ;;
  (if distributed_state self then ret tt else raise AssertionError) ;;
  call wait_for_everyone ;;
  call save_pretrained ;;
  log LogTokenizerSaved.

(** *** [train_stages] *)

(** The body of the [for i, stage in enumerate(...)] loop over the remaining
    stages, [i] being the index of the head of [l].  The result says whether
    the name [trainer] is bound when the loop ends. *)
Fixpoint stage_loop (round_num start_stage : Z) (is_coord : bool)
    (l : list Stage) (i : Z) (bound : bool) : M bool :=
  match l with
  | [] => ret bound
  | stage :: rest =>
      let stage_num := start_stage + i in
      modify (with_stage_num stage_num) ;;
      (if is_coord then
         w <- get_world ;;
         exp <- expiration ;;
         emit (EStore ROUND_STAGE_NUMBER_KEY None
                      (VPointer (node_round_num w) stage_num) exp)
       else ret tt) ;;
      log (LogTraining round_num stage_num) ;;
      emit (EDatasetsFn round_num stage_num) ;;
      d <- ask (fun n => datasets_fn stage n round_num stage_num) ;;
      match d with
      | Some e => raise e
      | None =>
          call create_publishing_trainer ;;
          modify (with_stage_rewards 0) ;;
          train_stage_and_save ;;
          log (LogFinished round_num stage_num) ;;
          stage_loop round_num start_stage is_coord rest (i + 1) true
      end
  end.

Definition train_stages (round_num start_stage : Z) (is_coord : bool) : M unit :=
  modify (with_round_num round_num) ;;
  bound <- stage_loop round_num start_stage is_coord
             (py_slice_from (stages self) start_stage) 0 false ;;
  match push_to_hub_token self with
  | Some _ =>
      log LogPushing ;;
      try_except
        ((if bound : bool then
            call push_to_hub ;;
            r <- ask (trainer_push_to_hub env) ;;
            match r with Some e => raise e | None => ret tt end
          else raise UnboundLocalError) ;;
         sleep 1)
        (fun _ => Some (log LogPushFailed))
  | None => ret tt
  end ;;
  cleanup ;;
  (if bound : bool then ret tt else raise UnboundLocalError) ;;
  call gc_collect.

(** *** [coordinator_train] *)

Fixpoint coordinator_loop (fuel : nat) (start_time : Q) (round_num : Z) : M unit :=
  match fuel with
  | O => out_of_fuel
  | S fuel' =>
      if round_num <? max_rounds self then
        now <- ask (monotonic env) ;;
        if Qlt_bool (now - start_time) (train_timeout self) then
          log (LogStartingRound round_num) ;;
          call get_visible_maddrs ;;
          train_stages round_num 0 true ;;
          let round_num' := round_num + 1 in
          if round_num' =? max_rounds self then ret tt
          else coordinator_loop fuel' start_time round_num'
        else log LogTimedOut
      else log LogTimedOut
  end.

Definition coordinator_train : M unit :=
  start_time <- ask (monotonic env) ;;
  coordinator_loop (S (Z.to_nat (max_rounds self))) start_time 0.

(** *** [follower_train] *)

(** The local variables of [follower_train] that survive an iteration. *)
Record follower_state : Type := {
  done_rounds : gset Z;
  fetch_log_time : Q;
  check_backoff : Q
}.

(** How an iteration of the [while] loop ends: by falling through or
    [continue], or by [return]. *)
Inductive loop_ctl : Type :=
| Continue (st : follower_state)
| Return.

Section Follower.

Variables check_interval log_timeout max_check_interval : Q.

(** The branch [if round_num not in done_rounds:]. *)
Definition follower_join (st : follower_state) (round_num stage : Z)
  : M follower_state :=
  log (LogJoining round_num stage) ;;
  try_except (train_stages round_num stage false)
    (fun e =>
       if is_dataset_generation e
       then Some (if 0 <? stage
                  then log LogReattempt ;; train_stages round_num 0 false
                  else raise e)
       else None) ;;
  ret {| done_rounds := {[ round_num ]} ∪ done_rounds st;
         fetch_log_time := fetch_log_time st;
         check_backoff := check_interval |}.

(** The branch [else:] of the same test. *)
Definition follower_idle (st : follower_state) (round_num : Z)
  : M follower_state :=
  log (LogAlreadyFinished round_num (check_backoff st)) ;;
  sleep (check_backoff st) ;;
  ret {| done_rounds := done_rounds st;
         fetch_log_time := fetch_log_time st;
         check_backoff := py_min (check_backoff st * 2)%Q max_check_interval |}.

(** One iteration of the [while] loop. *)
Definition follower_body (st : follower_state) : M loop_ctl :=
  curr_time <- ask (monotonic env) ;;
  call get_visible_maddrs ;;
  emit EGetRoundAndStage ;;
  fetched <- ask (get_round_and_stage env) ;;
  match fetched with
  | inl e =>
      let st' :=
        if Qlt_bool log_timeout (curr_time - fetch_log_time st)
        then {| done_rounds := done_rounds st;
                fetch_log_time := curr_time;
                check_backoff := check_backoff st |}
        else st in
      when (Qlt_bool log_timeout (curr_time - fetch_log_time st))
           (log (LogCouldNotFetch e)) ;;
      sleep check_interval ;;
      ret (Continue st')
  | inr (round_num, stage) =>
      st' <- (if bool_decide (round_num ∈ done_rounds st)
              then follower_idle st round_num
              else follower_join st round_num stage) ;;
      if round_num =? max_rounds self - 1 then ret Return
      else ret (Continue st')
  end.

Fixpoint follower_loop (fuel : nat) (start_time : Q) (st : follower_state)
  : M unit :=
  match fuel with
  | O => out_of_fuel
  | S fuel' =>
      now <- ask (monotonic env) ;;
      if Qlt_bool (now - start_time) (train_timeout self) then
        c <- follower_body st ;;
        match c with
        | Continue st' => follower_loop fuel' start_time st'
        | Return => ret tt
        end
      else log LogTimedOut
  end.

Definition follower_init (start_time : Q) : follower_state :=
  {| done_rounds := ∅;
     fetch_log_time := start_time;
     check_backoff := check_interval |}.

Definition follower_train (fuel : nat) : M unit :=
  start_time <- ask (monotonic env) ;;
  follower_loop fuel start_time (follower_init start_time).

End Follower.

(** *** [_train] and [train] *)

(** [follower_train()] is called with its defaults: [check_interval=5.0],
    [log_timeout=10.0], [max_check_interval=60.0 * 5]. *)
Definition _train (fuel : nat) : M unit :=
  if is_coordinator self then coordinator_train
  else follower_train 5 10 (60 * 5) fuel.

Definition train (fuel : nat) : M unit :=
  try_finally
    (try_except (_train fuel)
       (fun e => Some (call print_system_info ;; log LogException ;; raise e)))
    (w <- get_world ;;
     when (dist_initialized w)
          (call destroy_process_group ;; modify (with_dist_initialized false))).

End Trainer.

(** ** Observations on traces *)

(** The progress pointer written by an event, if it is such a write. *)
Definition pointer_write (e : event) : option (Z * Z) :=
  match e with
  | EStore ROUND_STAGE_NUMBER_KEY _ (VPointer r s) _ => Some (r, s)
  | _ => None
  end.

Fixpoint pointer_writes (t : list event) : list (Z * Z) :=
  match t with
  | [] => []
  | e :: t' =>
      match pointer_write e with
      | Some p => p :: pointer_writes t'
      | None => pointer_writes t'
      end
  end.

(** The pointer value that a reader of the store sees after the trace. *)
Definition last_pointer (t : list event) : option (Z * Z) :=
  last (pointer_writes t).

Fixpoint count_events (p : event -> bool) (t : list event) : nat :=
  match t with
  | [] => O
  | e :: t' => if p e then S (count_events p t') else count_events p t'
  end.

(** [cleanup()] calls [self.node.clear_stage_cache()] once, and nothing else
    calls it: the runs of [cleanup()] are counted by that call. *)
Definition is_cleanup (e : event) : bool :=
  match e with ECall clear_stage_cache => true | _ => false end.
Definition cleanup_count : list event -> nat := count_events is_cleanup.

(** The warning logged when a transient training error is caught. *)
Definition is_transient_log (e : event) : bool :=
  match e with ELog (LogDHTIPCError _) => true | _ => false end.
Definition transient_count : list event -> nat := count_events is_transient_log.

Definition is_train_attempt (e : event) : bool :=
  match e with ETrain _ _ => true | _ => false end.
Definition train_count : list event -> nat := count_events is_train_attempt.

Definition is_sleep (d : Q) (e : event) : bool :=
  match e with ESleep d' => Qeq_bool d d' | _ => false end.

Definition is_store (e : event) : bool :=
  match e with EStore _ _ _ _ => true | _ => false end.

Definition is_leaderboard_store (e : event) : bool :=
  match e with EStore (leaderboard_key _ _) _ _ _ => true | _ => false end.

(** Events by which a stage is executed: building its datasets, creating
    its trainer, running a train step, saving. *)
Definition is_stage_execution (e : event) : bool :=
  match e with
  | EDatasetsFn _ _ | ETrain _ _ => true
  | ECall create_publishing_trainer | ECall save_model => true
  | _ => false
  end.

(** Lexicographic order on [(round, stage)]. *)
Definition pointer_lt (p q : Z * Z) : Prop :=
  fst p < fst q \/ (fst p = fst q /\ snd p < snd q).

Fixpoint nondecreasingb (l : list Z) : bool :=
  match l with
  | [] => true
  | x :: l' =>
      match l' with
      | [] => true
      | y :: _ => (x <=? y) && nondecreasingb l'
      end
  end.

(** ** Properties of runs

    [respects R m]: every run of [m] ends (it does not exhaust its fuel) and
    relates the world before, the world after and the events in between
    by [R]. *)
Definition respects (R : world -> world -> list event -> Prop) {A : Type}
    (m : M A) : Prop :=
  forall w, outcome (m w) <> OutOfFuel /\ R w (final (m w)) (events (m w)).

(** What a stage at position [(r, s)] may do once its datasets are built:
    no write of the progress pointer, no dataset construction, and train
    steps only of that very stage. *)
Definition body_event (r s : Z) (e : event) : Prop :=
  pointer_write e = None /\
  match e with
  | EDatasetsFn _ _ => False
  | ETrain r' s' => r' = r /\ s' = s
  | _ => True
  end.

(** The node stays at its round and stage, and all events are
    [body_event]s of that position. *)
Definition stays_in_stage (w w' : world) (t : list event) : Prop :=
  node_round_num w' = node_round_num w /\
  node_stage_num w' = node_stage_num w /\
  Forall (body_event (node_round_num w) (node_stage_num w)) t.

(** As many runs of [cleanup()] as transient failures caught. *)
Definition cleanup_balanced (w w' : world) (t : list event) : Prop :=
  cleanup_count t = transient_count t.

(** No events that concern stages or the progress pointer. *)
Definition quiet_event (e : event) : Prop :=
  pointer_write e = None /\
  match e with
  | EDatasetsFn _ _ | ETrain _ _ => False
  | _ => True
  end.

Definition quiet (w w' : world) (t : list event) : Prop :=
  node_round_num w' = node_round_num w /\ Forall quiet_event t.

(** The shape of the events of the stage loop of [train_stages round start]
    from index [i] on: per stage, the pointer write (coordinator only), the
    log line, the dataset construction, then events of that stage only. *)
Inductive stage_trace (round start : Z) (coord : bool)
  : Z -> list event -> Prop :=
| stage_trace_nil (i : Z) : stage_trace round start coord i []
| stage_trace_cons (i : Z) (exp : Q) (body rest : list event) :
    Forall (body_event round (start + i)) body ->
    stage_trace round start coord (i + 1) rest ->
    stage_trace round start coord i
      ((if coord
        then [EStore ROUND_STAGE_NUMBER_KEY None (VPointer round (start + i)) exp]
        else []) ++
       ELog (LogTraining round (start + i)) ::
       EDatasetsFn round (start + i) :: body ++ rest).

(** Every dataset construction and every train step happens while the
    pointer last written is that of its own round and stage. *)
Fixpoint pointer_guards (last : option (Z * Z)) (t : list event) : Prop :=
  match t with
  | [] => True
  | e :: t' =>
      match e with
      | EDatasetsFn r s | ETrain r s => last = Some (r, s)
      | _ => True
      end /\
      pointer_guards (match pointer_write e with
                      | Some p => Some p
                      | None => last
                      end) t'
  end.

(** The order of the numbers that floats denote; NaN denotes none and
    stands in no relation to any float. *)
Definition float_less (x y : pyfloat) : Prop :=
  match x, y with
  | Finite p, Finite q => (p < q)%Q
  | NegInf, Finite _ => True
  | NegInf, PosInf => True
  | Finite _, PosInf => True
  | _, _ => False
  end.

Definition float_same (x y : pyfloat) : Prop :=
  match x, y with
  | Finite p, Finite q => (p == q)%Q
  | PosInf, PosInf => True
  | NegInf, NegInf => True
  | _, _ => False
  end.

Definition float_le (x y : pyfloat) : Prop := float_less x y \/ float_same x y.

(** [a] ranks before [b] on the leaderboard: a greater reward, or the same
    reward and a worker key that is not smaller. *)
Definition ranks_before (a b : string * pyfloat) : Prop :=
  float_less (snd b) (snd a) \/
  (float_same (snd a) (snd b) /\ String.leb (fst b) (fst a) = true).

(** No reward of the snapshot is NaN. *)
Definition nan_free (l : list (string * pyfloat)) : Prop :=
  Forall (fun e => is_nan (snd e) = false) l.

(** The pointer that a reader sees after [t] when it saw [last] before. *)
Definition advance (last : option (Z * Z)) (t : list event) : option (Z * Z) :=
  match last_pointer t with
  | Some p => Some p
  | None => last
  end.

(** The states that the loop of [follower_train] can be in at the start of
    an iteration. *)
Inductive follower_reachable (env : Env) (self : HivemindGRPOTrainer)
    (check_interval log_timeout max_check_interval : Q)
  : follower_state -> Prop :=
| reachable_init (start_time : Q) :
    follower_reachable env self check_interval log_timeout max_check_interval
      (follower_init check_interval start_time)
| reachable_step (st st' : follower_state) (w : world) :
    follower_reachable env self check_interval log_timeout max_check_interval st ->
    outcome (follower_body env self check_interval log_timeout
               max_check_interval st w) = Ok (Continue st') ->
    follower_reachable env self check_interval log_timeout max_check_interval st'.

(** The backoff of the state in which an iteration leaves the loop, when it
    continues. *)
Definition next_backoff (x : result loop_ctl * world * list event) : option Q :=
  match outcome x with
  | Ok (Continue st) => Some (check_backoff st)
  | _ => None
  end.

(** ** Scenarios

    Concrete environments, trainers and worlds on which the statements
    below are instantiated. *)

Definition calm_env : Env :=
  {| monotonic := fun _ => 0%Q;
     get_dht_time := fun _ => 100%Q;
     time_time := fun _ => 7%Q;
     get_dht_value := fun _ _ => None;
     get_round_and_stage := fun _ => inr (0, 0);
     trainer_train := fun _ => None;
     trainer_push_to_hub := fun _ => None;
     md5_hexdigest := fun s => s |}.

Definition with_trainer_train (f : nat -> option exn) (env : Env) : Env :=
  {| monotonic := monotonic env;
     get_dht_time := get_dht_time env;
     time_time := time_time env;
     get_dht_value := get_dht_value env;
     get_round_and_stage := get_round_and_stage env;
     trainer_train := f;
     trainer_push_to_hub := trainer_push_to_hub env;
     md5_hexdigest := md5_hexdigest env |}.

Definition with_get_dht_value
    (f : nat -> dht_key -> option (list (string * pyfloat))) (env : Env) : Env :=
  {| monotonic := monotonic env;
     get_dht_time := get_dht_time env;
     time_time := time_time env;
     get_dht_value := f;
     get_round_and_stage := get_round_and_stage env;
     trainer_train := trainer_train env;
     trainer_push_to_hub := trainer_push_to_hub env;
     md5_hexdigest := md5_hexdigest env |}.

Definition with_get_round_and_stage (f : nat -> exn + (Z * Z)) (env : Env) : Env :=
  {| monotonic := monotonic env;
     get_dht_time := get_dht_time env;
     time_time := time_time env;
     get_dht_value := get_dht_value env;
     get_round_and_stage := f;
     trainer_train := trainer_train env;
     trainer_push_to_hub := trainer_push_to_hub env;
     md5_hexdigest := md5_hexdigest env |}.

Definition ok_stage : Stage := {| datasets_fn := fun _ _ _ => None |}.

Definition broken_stage : Stage :=
  {| datasets_fn := fun _ _ _ => Some DatasetGenerationError |}.

Definition swarm_trainer (coord : bool) (l : list Stage) (rounds : Z)
  : HivemindGRPOTrainer :=
  {| node_key := "peer";
     is_coordinator := coord;
     out_expiration := 14400;
     stages := l;
     max_rounds := rounds;
     train_timeout := 1000;
     push_to_hub_token := None;
     distributed_state := true;
     wandb_run := false;
     cuda_available := false;
     mps_available := false;
     xpu_available := None |}.

Definition fresh_world : world :=
  {| tick := 0;
     node_round_num := 0;
     node_stage_num := 0;
     node_outputs := ∅;
     node_rewards := [];
     self_stage_rewards := 0;
     state_global_step := 0;
     dist_initialized := true |}.

Definition with_global_step (n : Z) (w : world) : world :=
  {| tick := tick w;
     node_round_num := node_round_num w;
     node_stage_num := node_stage_num w;
     node_outputs := node_outputs w;
     node_rewards := node_rewards w;
     self_stage_rewards := self_stage_rewards w;
     state_global_step := n;
     dist_initialized := dist_initialized w |}.

Definition sample_rewards : list (string * pyfloat) :=
  [("anna"%string, Finite 1); ("bert"%string, Finite 2);
   ("cleo"%string, Finite 1)].

(** A snapshot in which one peer has stored NaN, as [dict.items()] lists
    it. *)
Definition nan_rewards : list (string * pyfloat) :=
  [("anna"%string, Finite 1); ("bert"%string, NaN); ("cleo"%string, Finite 2)].

(** The state of the follower loop after round 0 has been replayed, with
    the default intervals, and the state after one idle poll from there. *)
Definition joined_state : follower_state :=
  {| done_rounds := {[ 0 ]} ∪ ∅; fetch_log_time := 0; check_backoff := 5 |}.

Definition doubled_state : follower_state :=
  {| done_rounds := {[ 0 ]} ∪ ∅;
     fetch_log_time := 0;
     check_backoff := py_min (5 * 2) 300 |}.

(** A schedule of four stages none of which can build its datasets, and a
    store whose pointer reads round 2, stage 3. *)
Definition broken_schedule : list Stage :=
  [broken_stage; broken_stage; broken_stage; broken_stage].

Definition late_env : Env :=
  with_get_round_and_stage (fun _ => inr (2, 3)) calm_env.


(** ** [wait_for]

    [result_fn n] is the outcome of calling [result_fn()] as the [n]-th
    interaction: an exception, [None], or a value.  The state of the loop is
    the local name [result]: not bound yet, or bound to the last answer. *)

Section WaitFor.

Variable env : Env.
Variable V : Type.
Variable result_fn : nat -> exn + option V.
Variables interval timeout : Q.

Fixpoint wait_for_loop (fuel : nat) (start_time : Q)
    (result : option (option V)) : M (option V) :=
  match fuel with
  | O => out_of_fuel
  | S fuel' =>
      now <- ask (monotonic env) ;;
      if Qlt_bool (now - start_time) timeout then
        r <- ask result_fn ;;
        match r with
        | inl e => raise e
        | inr None =>
            sleep interval ;;
            wait_for_loop fuel' start_time (Some None)
        | inr (Some v) => ret (Some v)
        end
      else
        match result with
        | None => raise UnboundLocalError
        | Some r => ret r
        end
  end.

Definition wait_for (fuel : nat) : M (option V) :=
  start_time <- ask (monotonic env) ;;
  wait_for_loop fuel start_time None.

End WaitFor.

(** ** Further observations on traces *)

(** The rounds that the coordinator announces, in order. *)
Fixpoint started_rounds (t : list event) : list Z :=
  match t with
  | [] => []
  | ELog (LogStartingRound r) :: t' => r :: started_rounds t'
  | _ :: t' => started_rounds t'
  end.

Definition is_timed_out (e : event) : bool :=
  match e with ELog LogTimedOut => true | _ => false end.

Definition is_destroy (e : event) : bool :=
  match e with ECall destroy_process_group => true | _ => false end.

Definition is_wandb_finish (e : event) : bool :=
  match e with ECall wandb_finish => true | _ => false end.

(** Writes of a worker's outputs or of its cumulative reward. *)
Definition is_result_store (e : event) : bool :=
  match e with
  | EStore (node_outputs_key _) _ _ _ | EStore (rewards_key _ _) _ _ _ => true
  | _ => false
  end.

(** What the code of [train_stages], [train_stage_and_save] and [cleanup]
    may do, a call of [trainer.train()] being the one event [ETrain]: run
    stages, save, push, clean up, log its own lines, sleep between retries,
    and, as coordinator only, write the progress pointer.  That code reads
    nothing from the store and writes nothing else to it; what the loss hook
    stores while [trainer.train()] runs is no event of the stage runner. *)
Definition stage_runner_event (coord : bool) (e : event) : bool :=
  match e with
  | EStore ROUND_STAGE_NUMBER_KEY None (VPointer _ _) _ => coord
  | EStore _ _ _ _ => false
  | EGetValue _ | EGetRoundAndStage | EPutStageOutputs _ _ _ _ _ => false
  | EDatasetsFn _ _ | ETrain _ _ | ESleep _ => true
  | ELog m =>
      match m with
      | LogTraining _ _ | LogFinished _ _ | LogPushing | LogPushFailed
      | LogDHTIPCError _ | LogSavingModel | LogModelSaved
      | LogTokenizerSaved => true
      | _ => false
      end
  | ECall c =>
      match c with
      | super_compute_loss | get_visible_maddrs | print_system_info => false
      | _ => true
      end
  end.

Definition stage_runner_only (coord : bool) (w w' : world) (t : list event)
  : Prop :=
  Forall (fun e => stage_runner_event coord e = true) t.

(** No write of the progress pointer. *)
Definition pointer_free (w w' : world) (t : list event) : Prop :=
  pointer_writes t = [].

Definition with_trainer_push_to_hub (f : nat -> option exn) (env : Env) : Env :=
  {| monotonic := monotonic env;
     get_dht_time := get_dht_time env;
     time_time := time_time env;
     get_dht_value := get_dht_value env;
     get_round_and_stage := get_round_and_stage env;
     trainer_train := trainer_train env;
     trainer_push_to_hub := f;
     md5_hexdigest := md5_hexdigest env |}.

(** Whether the train step asked as the [n]-th interaction fails with an
    error of the transient class. *)
Definition fails_transiently (env : Env) (n : nat) : bool :=
  match trainer_train env n with
  | Some e => is_transient e
  | None => false
  end.

Definition is_save_model (e : event) : bool :=
  match e with ECall save_model => true | _ => false end.

Definition is_save_pretrained (e : event) : bool :=
  match e with ECall save_pretrained => true | _ => false end.

(** Neither the model nor the tokenizer is saved. *)
Definition no_save (w w' : world) (t : list event) : Prop :=
  count_events is_save_model t = 0%nat /\
  count_events is_save_pretrained t = 0%nat.

(** No stage is executed. *)
Definition no_stage_execution (w w' : world) (t : list event) : Prop :=
  count_events is_stage_execution t = 0%nat.

(** The dataset constructions of a trace, as [(round, stage)], in order. *)
Fixpoint datasets_calls (t : list event) : list (Z * Z) :=
  match t with
  | [] => []
  | EDatasetsFn r s :: t' => (r, s) :: datasets_calls t'
  | _ :: t' => datasets_calls t'
  end.

(** The stages whose end [train_stages] has logged, as [(round, stage)],
    in order. *)
Fixpoint finished_calls (t : list event) : list (Z * Z) :=
  match t with
  | [] => []
  | ELog (LogFinished r s) :: t' => (r, s) :: finished_calls t'
  | _ :: t' => finished_calls t'
  end.

(** No stage is logged as finished. *)
Definition no_finish (w w' : world) (t : list event) : Prop :=
  finished_calls t = [].

(** The positions [(r, s)], ..., [(r, s + n - 1)]: [n] successive stages
    of round [r], from stage [s] on. *)
Definition stage_positions (r s : Z) (n : nat) : list (Z * Z) :=
  map (fun j => (r, s + Z.of_nat j)) (seq 0 n).

(** The positions of [m] whole rounds of [len] stages each, from round [r]
    on: every round begins at stage 0. *)
Fixpoint round_positions (len : nat) (r : Z) (m : nat) : list (Z * Z) :=
  match m with
  | O => []
  | S m' => stage_positions r 0 len ++ round_positions len (r + 1) m'
  end.

(** ** Further scenarios *)

(** A train step that fails twice with [EOFError] and then succeeds. *)
Definition flaky_env : Env :=
  with_trainer_train
    (fun n => if (n <? 2)%nat then Some EOFError else None) calm_env.

(** A store whose pointer reads round 2, stage 3, and a train step that
    fails with an error of its own. *)
Definition crashing_env : Env :=
  with_trainer_train (fun _ => Some (OtherError 7)) late_env.

(** A store whose pointer cannot be read. *)
Definition deaf_env : Env :=
  with_get_round_and_stage (fun _ => inl (OtherError 1)) calm_env.

Definition ok_schedule : list Stage :=
  [ok_stage; ok_stage; ok_stage; ok_stage].

(** A [result_fn] that answers 42 at its second call. *)
Definition answers_later : nat -> exn + option Z :=
  fun n => if (n =? 4)%nat then inr (Some 42) else inr None.

(** * Reasoning about runs *)

Lemma count_events_app (p : event -> bool) (t1 t2 : list event) :
  count_events p (t1 ++ t2) = (count_events p t1 + count_events p t2)%nat.
Proof.
  induction t1 as [|e t1 IH]; simpl; [reflexivity|].
  destruct (p e); rewrite IH; reflexivity.
Qed.

Lemma pointer_writes_app (t1 t2 : list event) :
  pointer_writes (t1 ++ t2) = pointer_writes t1 ++ pointer_writes t2.
Proof.
  induction t1 as [|e t1 IH]; simpl; [reflexivity|].
  destruct (pointer_write e); rewrite IH; reflexivity.
Qed.

Lemma Qlt_bool_iff (x y : Q) : Qlt_bool x y = true <-> (x < y)%Q.
Proof.
  unfold Qlt_bool. rewrite negb_true_iff.
  destruct (Qle_bool y x) eqn:E.
  - apply Qle_bool_iff in E. split; [discriminate|]. intros H. exfalso. lra.
  - split; [intros _|reflexivity].
    apply Qnot_le_lt. intros H. apply Qle_bool_iff in H. congruence.
Qed.

Lemma Qlt_bool_false_iff (x y : Q) : Qlt_bool x y = false <-> (y <= x)%Q.
Proof.
  unfold Qlt_bool. rewrite negb_false_iff. apply Qle_bool_iff.
Qed.

(** The run of a sequence, a handler and a finaliser, by components. *)
Lemma events_bind {A B : Type} (m : M A) (f : A -> M B) (w : world) :
  events (bind m f w) =
  events (m w) ++ match outcome (m w) with
                  | Ok a => events (f a (final (m w)))
                  | _ => []
                  end.
Proof.
  unfold bind, events, outcome, final.
  destruct (m w) as [[[a|e|] w1] t1]; simpl;
    [destruct (f a w1) as [[r2 w2] t2]; reflexivity | | ];
    rewrite app_nil_r; reflexivity.
Qed.

Lemma outcome_bind {A B : Type} (m : M A) (f : A -> M B) (w : world) :
  outcome (bind m f w) =
  match outcome (m w) with
  | Ok a => outcome (f a (final (m w)))
  | Raise e => Raise e
  | OutOfFuel => OutOfFuel
  end.
Proof.
  unfold bind, events, outcome, final.
  destruct (m w) as [[[a|e|] w1] t1]; simpl;
    [destruct (f a w1) as [[r2 w2] t2]; reflexivity | | ]; reflexivity.
Qed.

Lemma final_bind {A B : Type} (m : M A) (f : A -> M B) (w : world) :
  final (bind m f w) =
  match outcome (m w) with
  | Ok a => final (f a (final (m w)))
  | _ => final (m w)
  end.
Proof.
  unfold bind, events, outcome, final.
  destruct (m w) as [[[a|e|] w1] t1]; simpl;
    [destruct (f a w1) as [[r2 w2] t2]; reflexivity | | ]; reflexivity.
Qed.

Lemma run_emit (e : event) (w : world) :
  outcome (emit e w) = Ok tt /\ final (emit e w) = w /\ events (emit e w) = [e].
Proof. repeat split. Qed.

Lemma outcome_emit (e : event) (w : world) : outcome (emit e w) = Ok tt.
Proof. reflexivity. Qed.
Lemma final_emit (e : event) (w : world) : final (emit e w) = w.
Proof. reflexivity. Qed.
Lemma events_emit (e : event) (w : world) : events (emit e w) = [e].
Proof. reflexivity. Qed.

Lemma outcome_ret {A : Type} (a : A) (w : world) : outcome (ret a w) = Ok a.
Proof. reflexivity. Qed.
Lemma final_ret {A : Type} (a : A) (w : world) : final (ret a w) = w.
Proof. reflexivity. Qed.
Lemma events_ret {A : Type} (a : A) (w : world) : events (ret a w) = [].
Proof. reflexivity. Qed.

Lemma outcome_raise {A : Type} (e : exn) (w : world) :
  outcome (@raise A e w) = Raise e.
Proof. reflexivity. Qed.
Lemma final_raise {A : Type} (e : exn) (w : world) : final (@raise A e w) = w.
Proof. reflexivity. Qed.
Lemma events_raise {A : Type} (e : exn) (w : world) : events (@raise A e w) = [].
Proof. reflexivity. Qed.

Lemma outcome_modify (f : world -> world) (w : world) :
  outcome (modify f w) = Ok tt.
Proof. reflexivity. Qed.
Lemma final_modify (f : world -> world) (w : world) : final (modify f w) = f w.
Proof. reflexivity. Qed.
Lemma events_modify (f : world -> world) (w : world) : events (modify f w) = [].
Proof. reflexivity. Qed.

Lemma outcome_ask {A : Type} (o : nat -> A) (w : world) :
  outcome (ask o w) = Ok (o (tick w)).
Proof. reflexivity. Qed.
Lemma final_ask {A : Type} (o : nat -> A) (w : world) :
  final (ask o w) = next_tick w.
Proof. reflexivity. Qed.
Lemma events_ask {A : Type} (o : nat -> A) (w : world) : events (ask o w) = [].
Proof. reflexivity. Qed.

Lemma outcome_get_world (w : world) : outcome (get_world w) = Ok w.
Proof. reflexivity. Qed.
Lemma final_get_world (w : world) : final (get_world w) = w.
Proof. reflexivity. Qed.
Lemma events_get_world (w : world) : events (get_world w) = [].
Proof. reflexivity. Qed.

Create Rewrite HintDb run.
Hint Rewrite @events_bind @outcome_bind @final_bind
  outcome_emit final_emit events_emit
  @outcome_ret @final_ret @events_ret
  @outcome_raise @final_raise @events_raise
  outcome_modify final_modify events_modify
  @outcome_ask @final_ask @events_ask
  outcome_get_world final_get_world events_get_world : run.

Lemma events_try_except {A : Type} (m : M A) (h : exn -> option (M A))
    (w : world) :
  events (try_except m h w) =
  events (m w) ++ match outcome (m w) with
                  | Raise e => match h e with
                               | Some k => events (k (final (m w)))
                               | None => []
                               end
                  | _ => []
                  end.
Proof.
  unfold try_except, events, outcome, final.
  destruct (m w) as [[[a|e|] w1] t1]; simpl; rewrite ?app_nil_r; try reflexivity.
  destruct (h e) as [k|]; simpl; rewrite ?app_nil_r; try reflexivity.
  destruct (k w1) as [[r2 w2] t2]; reflexivity.
Qed.

Lemma outcome_try_except {A : Type} (m : M A) (h : exn -> option (M A))
    (w : world) :
  outcome (try_except m h w) =
  match outcome (m w) with
  | Raise e => match h e with
               | Some k => outcome (k (final (m w)))
               | None => Raise e
               end
  | o => o
  end.
Proof.
  unfold try_except, events, outcome, final.
  destruct (m w) as [[[a|e|] w1] t1]; simpl; try reflexivity.
  destruct (h e) as [k|]; simpl; try reflexivity.
  destruct (k w1) as [[r2 w2] t2]; reflexivity.
Qed.

Lemma final_try_except {A : Type} (m : M A) (h : exn -> option (M A))
    (w : world) :
  final (try_except m h w) =
  match outcome (m w) with
  | Raise e => match h e with
               | Some k => final (k (final (m w)))
               | None => final (m w)
               end
  | _ => final (m w)
  end.
Proof.
  unfold try_except, events, outcome, final.
  destruct (m w) as [[[a|e|] w1] t1]; simpl; try reflexivity.
  destruct (h e) as [k|]; simpl; try reflexivity.
  destruct (k w1) as [[r2 w2] t2]; reflexivity.
Qed.

Hint Rewrite @events_try_except @outcome_try_except @final_try_except : run.

Lemma run_eta {A : Type} (x : result A * world * list event) :
  x = (outcome x, final x, events x).
Proof. destruct x as [[r w] t]. reflexivity. Qed.

(** A relation between the world before, the world after and the events in
    between that holds of no events and composes holds of a whole run as
    soon as it holds of the primitive steps. *)
Section Respects.

Variable R : world -> world -> list event -> Prop.
Hypothesis R_nil : forall w, R w w [].
Hypothesis R_app : forall w w1 w2 t1 t2,
  R w w1 t1 -> R w1 w2 t2 -> R w w2 (t1 ++ t2).

Local Abbreviation respects := (respects R).

Lemma respects_ret {A : Type} (a : A) : respects (ret a).
Proof using R_nil R_app. intros w. split; [discriminate | apply R_nil]. Qed.

Lemma respects_raise {A : Type} (e : exn) : respects (@raise A e).
Proof using R_nil R_app. intros w. split; [discriminate | apply R_nil]. Qed.

Lemma respects_get_world : respects get_world.
Proof using R_nil R_app. intros w. split; [discriminate | apply R_nil]. Qed.

Lemma respects_emit (e : event) :
  (forall w, R w w [e]) -> respects (emit e).
Proof using R_nil R_app. intros H w. split; [discriminate | apply H]. Qed.

Lemma respects_modify (f : world -> world) :
  (forall w, R w (f w) []) -> respects (modify f).
Proof using R_nil R_app. intros H w. split; [discriminate | apply H]. Qed.

Lemma respects_ask {A : Type} (oracle : nat -> A) :
  (forall w, R w (next_tick w) []) -> respects (ask oracle).
Proof using R_nil R_app. intros H w. split; [discriminate | apply H]. Qed.

Lemma respects_sleep (d : Q) :
  (forall w, R w w [ESleep d]) -> respects (sleep d).
Proof using R_nil R_app.
  intros H. unfold sleep. destruct (Qlt_bool d 0).
  - apply respects_raise.
  - apply respects_emit, H.
Qed.

Lemma respects_bind {A B : Type} (m : M A) (f : A -> M B) :
  respects m -> (forall a, respects (f a)) -> respects (bind m f).
Proof using R_nil R_app.
  intros Hm Hf w. unfold bind, outcome, final, events.
  destruct (Hm w) as [Ho Hr]. unfold outcome, final, events in Ho, Hr.
  destruct (m w) as [[r w1] t1]. simpl in Ho, Hr.
  destruct r as [a| e |]; simpl; [| split; [discriminate | exact Hr] | congruence].
  destruct (Hf a w1) as [Ho2 Hr2]. unfold outcome, final, events in Ho2, Hr2.
  destruct (f a w1) as [[r2 w2] t2]. simpl in *.
  split; [exact Ho2 | eapply R_app; eassumption].
Qed.

Lemma respects_try_except {A : Type} (m : M A) (h : exn -> option (M A)) :
  respects m -> (forall e k, h e = Some k -> respects k) ->
  respects (try_except m h).
Proof using R_nil R_app.
  intros Hm Hh w. unfold try_except, outcome, final, events.
  destruct (Hm w) as [Ho Hr]. unfold outcome, final, events in Ho, Hr.
  destruct (m w) as [[r w1] t1]. simpl in Ho, Hr.
  destruct r as [a| e |]; simpl; [split; [discriminate | exact Hr] | | congruence].
  destruct (h e) as [k|] eqn:E; simpl; [| split; [discriminate | exact Hr]].
  destruct (Hh e k E w1) as [Ho2 Hr2]. unfold outcome, final, events in Ho2, Hr2.
  destruct (k w1) as [[r2 w2] t2]. simpl in *.
  split; [exact Ho2 | eapply R_app; eassumption].
Qed.

Lemma respects_try_finally {A : Type} (m : M A) (f : M unit) :
  respects m -> respects f -> respects (try_finally m f).
Proof using R_nil R_app.
  intros Hm Hf w. unfold try_finally, outcome, final, events.
  destruct (Hm w) as [Ho Hr]. unfold outcome, final, events in Ho, Hr.
  destruct (m w) as [[r w1] t1]. simpl in Ho, Hr.
  destruct (Hf w1) as [Ho2 Hr2]. unfold outcome, final, events in Ho2, Hr2.
  destruct r as [a| e |]; [| | congruence];
    destruct (f w1) as [[[[]| e2 |] w2] t2]; simpl in *;
    (split; [congruence | eapply R_app; eassumption]).
Qed.

Lemma respects_when (b : bool) (m : M unit) :
  respects m -> respects (when b m).
Proof using R_nil R_app. intros H. destruct b; simpl; [exact H | apply respects_ret]. Qed.

End Respects.

(** Breaks the goal [respects R m] down along the structure of [m], leaving
    the primitive steps. *)
Ltac respects_step Hnil Happ :=
  lazymatch goal with
  | |- respects _ (ret _) => apply (respects_ret _ Hnil Happ)
  | |- respects _ (raise _) => apply (respects_raise _ Hnil Happ)
  | |- respects _ get_world => apply (respects_get_world _ Hnil Happ)
  | |- respects _ (bind _ _) => apply (respects_bind _ Hnil Happ); [| intros ?]
  | |- respects _ (try_except _ _) =>
      apply (respects_try_except _ Hnil Happ);
      [| let e := fresh "e" in let k := fresh "k" in let E := fresh "E" in
         intros e k E; destruct e; simpl in E; inversion E; subst; clear E]
  | |- respects _ (when _ _) => apply (respects_when _ Hnil Happ)
  | |- respects _ (sleep _) => apply (respects_sleep _ Hnil Happ); intros ?
  | |- respects _ (call _) => apply (respects_emit _ Hnil Happ); intros ?
  | |- respects _ (log _) => apply (respects_emit _ Hnil Happ); intros ?
  | |- respects _ (emit _) => apply (respects_emit _ Hnil Happ); intros ?
  | |- respects _ (modify _) => apply (respects_modify _ Hnil Happ); intros ?
  | |- respects _ (ask _) => apply (respects_ask _ Hnil Happ); intros ?
  | |- respects _ (expiration _ _) => unfold expiration
  | |- respects _ (if ?b then _ else _) => destruct b
  | |- respects _ (match ?x with _ => _ end) => destruct x
  end.

Lemma stays_in_stage_nil (w : world) : stays_in_stage w w [].
Proof. repeat split; constructor. Qed.

Lemma stays_in_stage_app (w w1 w2 : world) (t1 t2 : list event) :
  stays_in_stage w w1 t1 -> stays_in_stage w1 w2 t2 ->
  stays_in_stage w w2 (t1 ++ t2).
Proof.
  intros (Hr1 & Hs1 & H1) (Hr2 & Hs2 & H2). rewrite Hr1, Hs1 in *.
  repeat split; try assumption. apply Forall_app; split; assumption.
Qed.

Lemma cleanup_balanced_nil (w : world) : cleanup_balanced w w [].
Proof. reflexivity. Qed.

Lemma cleanup_balanced_app (w w1 w2 : world) (t1 t2 : list event) :
  cleanup_balanced w w1 t1 -> cleanup_balanced w1 w2 t2 ->
  cleanup_balanced w w2 (t1 ++ t2).
Proof.
  unfold cleanup_balanced, cleanup_count, transient_count.
  intros H1 H2. rewrite !count_events_app. lia.
Qed.

Lemma quiet_nil (w : world) : quiet w w [].
Proof. split; constructor. Qed.

Lemma quiet_app (w w1 w2 : world) (t1 t2 : list event) :
  quiet w w1 t1 -> quiet w1 w2 t2 -> quiet w w2 (t1 ++ t2).
Proof.
  intros (Hr1 & H1) (Hr2 & H2). split; [congruence|].
  apply Forall_app; split; assumption.
Qed.

Create HintDb stays.
Create HintDb balanced.
Create HintDb quiet.

Ltac stays_tac :=
  repeat first
    [ solve [auto with stays]
    | respects_step stays_in_stage_nil stays_in_stage_app ];
  try (repeat split; repeat constructor; reflexivity).

Ltac balanced_tac :=
  repeat first
    [ solve [auto with balanced]
    | respects_step cleanup_balanced_nil cleanup_balanced_app ];
  try reflexivity.

Ltac quiet_tac :=
  repeat first
    [ solve [auto with quiet]
    | respects_step quiet_nil quiet_app ];
  try (repeat split; repeat constructor; reflexivity).


Section CleanupFacts.

Variable self : HivemindGRPOTrainer.

(** [cleanup()], whose collaborators are events, returns; it clears the
    stage cache once and leaves the distributed process group destroyed. *)
Lemma cleanup_run (w : world) :
  outcome (cleanup self w) = Ok tt /\
  cleanup_count (events (cleanup self w)) = 1%nat /\
  transient_count (events (cleanup self w)) = 0%nat /\
  train_count (events (cleanup self w)) = 0%nat /\
  count_events (is_sleep 5) (events (cleanup self w)) = 0%nat /\
  dist_initialized (final (cleanup self w)) = false.
Proof.
  unfold cleanup, when, call, bind, emit, get_world, modify, ret,
    outcome, final, events.
  destruct (cuda_available self), (mps_available self),
    (xpu_available self) as [[|]|], (wandb_run self);
    simpl; destruct (dist_initialized w) eqn:E; simpl; repeat split;
    assumption.
Qed.

End CleanupFacts.

Section StageFacts.

Variable env : Env.
Variable self : HivemindGRPOTrainer.

Lemma cleanup_stays : respects stays_in_stage (cleanup self).
Proof. unfold cleanup. stays_tac. Qed.

Lemma cleanup_quiet : respects quiet (cleanup self).
Proof. unfold cleanup. quiet_tac. Qed.

Lemma train_step_stays : respects stays_in_stage (train_step env).
Proof.
  intros w. unfold train_step, bind, get_world, emit, ask, outcome, final, events.
  simpl. destruct (trainer_train env (tick w)); simpl;
    (split; [discriminate|]); repeat split; repeat constructor.
Qed.

Lemma train_step_balanced : respects cleanup_balanced (train_step env).
Proof. unfold train_step. balanced_tac. Qed.

Hint Resolve cleanup_stays train_step_stays : stays.
Hint Resolve train_step_balanced : balanced.
Hint Resolve cleanup_quiet : quiet.

Lemma train_attempts_stays (n : nat) :
  respects stays_in_stage (train_attempts env self n).
Proof.
  induction n as [|n IH]; simpl; stays_tac.
Qed.

(** A caught transient failure is logged once and followed by one
    [cleanup()]. *)
Lemma retry_balanced (e : exn) (k : M bool) :
  respects cleanup_balanced k ->
  respects cleanup_balanced (log (LogDHTIPCError e) ;; cleanup self ;; k).
Proof.
  intros Hk w.
  destruct (cleanup_run self w) as (Ho & Hc & Ht & _).
  unfold log. autorewrite with run. rewrite Ho.
  destruct (Hk (final (cleanup self w))) as [Hs1 Hs2].
  split; [exact Hs1|].
  unfold cleanup_balanced, cleanup_count, transient_count in *.
  simpl. rewrite !count_events_app. lia.
Qed.

Lemma train_attempts_balanced (n : nat) :
  respects cleanup_balanced (train_attempts env self n).
Proof.
  induction n as [|n IH]; simpl; [balanced_tac|].
  apply (respects_try_except _ cleanup_balanced_nil cleanup_balanced_app);
    [balanced_tac|].
  intros e k E. destruct (is_transient e); inversion E; subst.
  apply retry_balanced. balanced_tac.
Qed.

Hint Resolve train_attempts_stays : stays.
Hint Resolve train_attempts_balanced : balanced.

Lemma train_stage_and_save_stays :
  respects stays_in_stage (train_stage_and_save env self).
Proof. unfold train_stage_and_save. stays_tac. Qed.

Lemma train_stage_and_save_balanced :
  respects cleanup_balanced (train_stage_and_save env self).
Proof. unfold train_stage_and_save. balanced_tac. Qed.

End StageFacts.

#[global] Hint Resolve cleanup_stays train_step_stays train_attempts_stays
  train_stage_and_save_stays : stays.
#[global] Hint Resolve train_step_balanced train_attempts_balanced
  train_stage_and_save_balanced : balanced.
#[global] Hint Resolve cleanup_quiet : quiet.

Section StageLoopFacts.

Variable env : Env.
Variable self : HivemindGRPOTrainer.

Lemma stage_loop_balanced (round start : Z) (coord : bool) (l : list Stage) :
  forall i b,
    respects cleanup_balanced (stage_loop env self round start coord l i b).
Proof.
  induction l as [|stage rest IH]; intros i b; simpl; balanced_tac.
Qed.

Lemma stage_loop_nil_bound (round start : Z) (coord : bool) (l : list Stage) :
  forall i b w,
    outcome (stage_loop env self round start coord l i b w) = Ok false ->
    l = [] /\ b = false.
Proof.
  induction l as [|stage rest IH]; intros i b w; simpl.
  - autorewrite with run. intros H. split; congruence.
  - autorewrite with run. intros H. exfalso.
    destruct coord; autorewrite with run in H;
      destruct (datasets_fn _ _ _ _) in H; autorewrite with run in H;
      try discriminate;
      destruct (outcome (train_stage_and_save env self _)) in H;
      try discriminate;
      apply IH in H; destruct H; discriminate.
Qed.

Lemma stage_loop_trace (round start : Z) (coord : bool) (l : list Stage) :
  forall i b w,
    node_round_num w = round ->
    stage_trace round start coord i
      (events (stage_loop env self round start coord l i b w)) /\
    node_round_num (final (stage_loop env self round start coord l i b w))
    = round.
Proof.
  induction l as [|stage rest IH]; intros i b w Hw; simpl.
  - split; [constructor | exact Hw].
  - autorewrite with run.
    set (s := start + i).
    assert (Hbody : forall w1,
      node_round_num w1 = round -> node_stage_num w1 = s ->
      let x := (emit (ECall create_publishing_trainer);;
                modify (with_stage_rewards 0);;
                train_stage_and_save env self;;
                emit (ELog (LogFinished round s));;
                stage_loop env self round start coord rest (i + 1) true) w1 in
      (exists body tl, events x = body ++ tl /\
         Forall (body_event round s) body /\
         stage_trace round start coord (i + 1) tl) /\
      node_round_num (final x) = round).
    { intros w1 Hr Hs x. subst x. autorewrite with run.
      destruct (train_stage_and_save_stays env self (with_stage_rewards 0 w1))
        as (_ & Hr2 & Hs2 & Hf).
      simpl in Hr2, Hs2, Hf. rewrite Hr, Hs in *.
      destruct (outcome (train_stage_and_save env self _)) as [[]|e|].
      - autorewrite with run.
        destruct (IH (i + 1) true
                    (final (train_stage_and_save env self
                              (with_stage_rewards 0 w1))) Hr2) as [Ht Hn].
        split; [|exact Hn].
        eexists (ECall create_publishing_trainer ::
                 events (train_stage_and_save env self _) ++
                 [ELog (LogFinished round s)]), _.
        split; [simpl; rewrite <- app_assoc; reflexivity|].
        split; [|exact Ht].
        constructor; [split; [reflexivity | exact I]|].
        apply Forall_app; split; [exact Hf|].
        repeat constructor.
      - split; [|exact Hr2].
        eexists (ECall create_publishing_trainer ::
                 events (train_stage_and_save env self _)), [].
        split; [simpl; rewrite !app_nil_r; reflexivity|].
        split; [|constructor].
        constructor; [split; [reflexivity | exact I] | exact Hf].
      - split; [|exact Hr2].
        eexists (ECall create_publishing_trainer ::
                 events (train_stage_and_save env self _)), [].
        split; [simpl; rewrite !app_nil_r; reflexivity|].
        split; [|constructor].
        constructor; [split; [reflexivity | exact I] | exact Hf]. }
    destruct coord; unfold expiration, log, call; autorewrite with run;
      simpl final; simpl tick.
    + destruct (datasets_fn stage _ round s) as [e|].
      * autorewrite with run. simpl. rewrite Hw. split; [|reflexivity].
        apply (stage_trace_cons round start true i _ [] []); constructor.
      * match goal with
        | |- context [bind _ _ ?w1] =>
            destruct (Hbody w1) as [(body & tl & He & Hf & Ht) Hn];
              [simpl; exact Hw | reflexivity |]
        end.
        split; [|exact Hn].
        rewrite He. simpl. rewrite Hw.
        apply (stage_trace_cons round start true i _ body tl); assumption.
    + destruct (datasets_fn stage _ round s) as [e|].
      * autorewrite with run. simpl. split; [|exact Hw].
        apply (stage_trace_cons round start false i 0 [] []); constructor.
      * match goal with
        | |- context [bind _ _ ?w1] =>
            destruct (Hbody w1) as [(body & tl & He & Hf & Ht) Hn];
              [simpl; exact Hw | reflexivity |]
        end.
        split; [|exact Hn].
        rewrite He. simpl.
        apply (stage_trace_cons round start false i 0 body tl); assumption.
Qed.

End StageLoopFacts.

(** The log line that ends a stage is written by the stage loop only. *)
Lemma finished_calls_app (t1 t2 : list event) :
  finished_calls (t1 ++ t2) = finished_calls t1 ++ finished_calls t2.
Proof.
  induction t1 as [|e t1 IH]; simpl; [reflexivity|].
  destruct e as [| | | | | | |m|]; try exact IH.
  destruct m; simpl; rewrite ?IH; reflexivity.
Qed.

Lemma no_finish_nil (w : world) : no_finish w w [].
Proof. reflexivity. Qed.

Lemma no_finish_app (w w1 w2 : world) (t1 t2 : list event) :
  no_finish w w1 t1 -> no_finish w1 w2 t2 -> no_finish w w2 (t1 ++ t2).
Proof.
  unfold no_finish. intros H1 H2. rewrite finished_calls_app, H1, H2.
  reflexivity.
Qed.

Create HintDb no_finish.

Ltac no_finish_tac :=
  repeat first
    [ solve [auto with no_finish]
    | respects_step no_finish_nil no_finish_app ];
  try reflexivity.

Section NoFinishFacts.

Variable env : Env.
Variable self : HivemindGRPOTrainer.

Lemma cleanup_no_finish : respects no_finish (cleanup self).
Proof. unfold cleanup. no_finish_tac. Qed.

Lemma train_step_no_finish : respects no_finish (train_step env).
Proof. unfold train_step. no_finish_tac. Qed.

Hint Resolve cleanup_no_finish train_step_no_finish : no_finish.

Lemma train_attempts_no_finish (n : nat) :
  respects no_finish (train_attempts env self n).
Proof. induction n as [|n IH]; simpl; no_finish_tac. Qed.

Hint Resolve train_attempts_no_finish : no_finish.

Lemma train_stage_and_save_no_finish :
  respects no_finish (train_stage_and_save env self).
Proof. unfold train_stage_and_save. no_finish_tac. Qed.

End NoFinishFacts.

#[global] Hint Resolve cleanup_no_finish train_step_no_finish
  train_attempts_no_finish train_stage_and_save_no_finish : no_finish.

Section TrainStagesFacts.

Variable env : Env.
Variable self : HivemindGRPOTrainer.

(** What [train_stages] does once the stage loop is over: the optional push
    to the hub, [cleanup()], [del trainer], [gc.collect()]. *)
Lemma train_stages_tail (round start : Z) (coord : bool) :
  exists tail : bool -> M unit,
    train_stages env self round start coord =
      (modify (with_round_num round) ;;
       bound <- stage_loop env self round start coord
                  (py_slice_from (stages self) start) 0 false ;;
       tail bound) /\
    (forall b, respects quiet (tail b)) /\
    (forall b, respects no_finish (tail b)) /\
    (forall b w1,
       cleanup_count (events (tail b w1)) = 1%nat /\
       transient_count (events (tail b w1)) = 0%nat /\
       outcome (tail b w1) = if b then Ok tt else Raise UnboundLocalError).
Proof.
  eexists. split; [reflexivity|]. split; [|split].
  - intros b. quiet_tac.
  - intros b. no_finish_tac.
  - intros b w1.
    assert (Hpush : forall (m : M unit),
      respects quiet m ->
      (forall w2, cleanup_count (events (m w2)) = 0%nat /\
                  transient_count (events (m w2)) = 0%nat /\
                  outcome (m w2) = Ok tt) ->
      cleanup_count (events ((m ;; cleanup self ;;
         (if b then ret tt else raise UnboundLocalError) ;;
         call gc_collect) w1)) = 1%nat /\
      transient_count (events ((m ;; cleanup self ;;
         (if b then ret tt else raise UnboundLocalError) ;;
         call gc_collect) w1)) = 0%nat /\
      outcome ((m ;; cleanup self ;;
         (if b then ret tt else raise UnboundLocalError) ;;
         call gc_collect) w1) = if b then Ok tt else Raise UnboundLocalError).
    { intros m _ Hm. destruct (Hm w1) as (Hc & Ht & Ho).
      destruct (cleanup_run self (final (m w1))) as (Ho2 & Hc2 & Ht2 & _).
      unfold call. autorewrite with run. rewrite Ho, Ho2.
      unfold cleanup_count, transient_count in *.
      rewrite !count_events_app, Hc, Hc2, Ht, Ht2.
      destruct b; autorewrite with run; simpl; auto. }
    destruct (push_to_hub_token self) as [tok|].
    + apply Hpush; [quiet_tac|].
      intros w2. unfold log, call, try_except, sleep, bind, emit, ask, raise, ret,
        outcome, events, cleanup_count, transient_count.
      destruct b; simpl; [destruct (trainer_push_to_hub env (tick w2))|];
        simpl; auto.
    + apply Hpush; [quiet_tac|]. intros w2. simpl. auto.
Qed.

Lemma train_stages_decompose (round start : Z) (coord : bool) (w : world) :
  exists tail : bool -> M unit,
    train_stages env self round start coord =
      (modify (with_round_num round) ;;
       bound <- stage_loop env self round start coord
                  (py_slice_from (stages self) start) 0 false ;;
       tail bound) /\
    (forall b, respects quiet (tail b)) /\
    (forall b w1,
       cleanup_count (events (tail b w1)) = 1%nat /\
       transient_count (events (tail b w1)) = 0%nat /\
       outcome (tail b w1) = if b then Ok tt else Raise UnboundLocalError).
Proof.
  destruct (train_stages_tail round start coord) as (tail & E & Hq & _ & Hc).
  exists tail. split; [exact E|]. split; [exact Hq | exact Hc].
Qed.

(** [train_stages] always ends. *)
Lemma train_stages_total (round start : Z) (coord : bool) (w : world) :
  outcome (train_stages env self round start coord w) <> OutOfFuel.
Proof.
  destruct (train_stages_decompose round start coord w)
    as (tail & -> & Hq & _).
  autorewrite with run.
  destruct (stage_loop_balanced env self round start coord
              (py_slice_from (stages self) start) 0 false
              (with_round_num round w)) as [Hf _].
  destruct (outcome (stage_loop env self round start coord _ 0 false _));
    [apply Hq | discriminate | congruence].
Qed.

End TrainStagesFacts.

(** * The leaderboard order *)

Lemma string_compare_lt_trans (a b c : string) :
  String.compare a b = Lt -> String.compare b c = Lt -> String.compare a c = Lt.
Proof.
  revert b c. induction a as [|x a IH]; intros [|y b] [|z c]; simpl;
    try discriminate; try reflexivity.
  unfold Ascii.compare.
  destruct (N.compare_spec (Ascii.N_of_ascii x) (Ascii.N_of_ascii y)) as [E1|L1|G1];
    destruct (N.compare_spec (Ascii.N_of_ascii y) (Ascii.N_of_ascii z)) as [E2|L2|G2];
    try discriminate; intros H1 H2.
  - rewrite E1, E2, N.compare_refl. eapply IH; eassumption.
  - rewrite E1. apply N.compare_lt_iff in L2. rewrite L2. reflexivity.
  - rewrite <- E2. apply N.compare_lt_iff in L1. rewrite L1. reflexivity.
  - assert (L : (Ascii.N_of_ascii x < Ascii.N_of_ascii z)%N) by lia.
    apply N.compare_lt_iff in L. rewrite L. reflexivity.
Qed.

Lemma string_leb_iff (a b : string) :
  String.leb a b = true <-> String.compare a b = Lt \/ a = b.
Proof.
  unfold String.leb. destruct (String.compare a b) eqn:E.
  - apply String.compare_eq_iff in E. tauto.
  - tauto.
  - split; [discriminate|]. intros [H|H]; [discriminate|].
    subst. pose proof (String.compare_antisym b b) as A.
    rewrite E in A. discriminate.
Qed.

Lemma string_leb_trans (a b c : string) :
  String.leb a b = true -> String.leb b c = true -> String.leb a c = true.
Proof.
  rewrite !string_leb_iff. intros [H1|H1] [H2|H2]; subst; auto.
  left. eapply string_compare_lt_trans; eassumption.
Qed.

Lemma string_ltb_leb (a b : string) :
  String.ltb a b = negb (String.leb b a).
Proof.
  unfold String.ltb, String.leb. rewrite (String.compare_antisym b a).
  destruct (String.compare a b); reflexivity.
Qed.

Lemma float_lt_iff (x y : pyfloat) : float_lt x y = true <-> float_less x y.
Proof.
  destruct x, y; simpl; try apply Qlt_bool_iff; split; auto; discriminate.
Qed.

Lemma float_eq_iff (x y : pyfloat) : float_eq x y = true <-> float_same x y.
Proof.
  destruct x, y; simpl; try apply Qeq_bool_iff; split; auto; discriminate.
Qed.

Lemma float_less_irrefl (x : pyfloat) : ~ float_less x x.
Proof. destruct x; simpl; auto. apply Qlt_irrefl. Qed.

Lemma float_less_trans (x y z : pyfloat) :
  float_less x y -> float_less y z -> float_less x z.
Proof. destruct x, y, z; simpl; try tauto. apply Qlt_trans. Qed.

Lemma float_same_sym (x y : pyfloat) : float_same x y -> float_same y x.
Proof. destruct x, y; simpl; try tauto. apply Qeq_sym. Qed.

Lemma float_same_trans (x y z : pyfloat) :
  float_same x y -> float_same y z -> float_same x z.
Proof. destruct x, y, z; simpl; try tauto. apply Qeq_trans. Qed.

Lemma float_less_same_l (x y z : pyfloat) :
  float_same x y -> float_less y z -> float_less x z.
Proof.
  destruct x, y, z; simpl; try tauto. intros E H. rewrite E. exact H.
Qed.

Lemma float_less_same_r (x y z : pyfloat) :
  float_less x y -> float_same y z -> float_less x z.
Proof.
  destruct x, y, z; simpl; try tauto. intros H E. rewrite <- E. exact H.
Qed.

(** Floats that are not NaN are totally ordered. *)
Lemma float_trichotomy (x y : pyfloat) :
  is_nan x = false -> is_nan y = false ->
  float_less x y \/ float_same x y \/ float_less y x.
Proof.
  destruct x as [p| | |], y as [q| | |]; simpl; try discriminate; auto.
  intros _ _. destruct (Q_dec p q) as [[H|H]|H]; auto.
Qed.

(** The test [key_lt] of the sort says exactly that the right tuple does
    not rank after the left one, when neither reward is NaN. *)
Lemma key_lt_false_iff (a b : string * pyfloat) :
  is_nan (snd a) = false -> is_nan (snd b) = false ->
  key_lt a b = false <-> ranks_before a b.
Proof.
  intros Na Nb. unfold key_lt, ranks_before.
  destruct (float_eq (snd a) (snd b)) eqn:E.
  - apply float_eq_iff in E. rewrite string_ltb_leb, negb_false_iff.
    split; [auto|]. intros [H|[_ H]]; [|exact H]. exfalso.
    apply (float_less_irrefl (snd b)).
    eapply float_less_same_r; [exact H | exact E].
  - assert (N : ~ float_same (snd a) (snd b)).
    { intros H. apply float_eq_iff in H. congruence. }
    split.
    + intros H. left.
      destruct (float_trichotomy (snd a) (snd b) Na Nb) as [L|[S|G]].
      * apply float_lt_iff in L. congruence.
      * contradiction.
      * exact G.
    + intros [H|[H _]]; [|contradiction].
      destruct (float_lt (snd a) (snd b)) eqn:L; [|reflexivity].
      apply float_lt_iff in L. exfalso.
      apply (float_less_irrefl (snd a)).
      eapply float_less_trans; eassumption.
Qed.

Lemma ranks_before_total (a b : string * pyfloat) :
  is_nan (snd a) = false -> is_nan (snd b) = false ->
  ranks_before a b \/ ranks_before b a.
Proof.
  intros Na Nb. unfold ranks_before.
  destruct (float_trichotomy (snd a) (snd b) Na Nb) as [H|[H|H]]; auto.
  destruct (String.leb_total (fst a) (fst b)) as [L|L].
  - right. right. split; [apply float_same_sym; exact H | exact L].
  - left. right. split; assumption.
Qed.

Lemma ranks_before_trans (a b c : string * pyfloat) :
  ranks_before a b -> ranks_before b c -> ranks_before a c.
Proof.
  unfold ranks_before. intros [H1|[E1 L1]] [H2|[E2 L2]].
  - left. eapply float_less_trans; eassumption.
  - left. eapply float_less_same_l; [apply float_same_sym|]; eassumption.
  - left. eapply float_less_same_r; [|apply float_same_sym]; eassumption.
  - right. split; [eapply float_same_trans; eassumption|].
    eapply string_leb_trans; eassumption.
Qed.

(** Two tuples that rank before each other have the same worker key. *)
Lemma ranks_before_antisym (a b : string * pyfloat) :
  ranks_before a b -> ranks_before b a -> fst a = fst b.
Proof.
  unfold ranks_before. intros [H1|[E1 L1]] [H2|[E2 L2]].
  - exfalso. apply (float_less_irrefl (snd a)).
    eapply float_less_trans; eassumption.
  - exfalso. apply (float_less_irrefl (snd a)).
    eapply float_less_same_l; [apply float_same_sym|]; eassumption.
  - exfalso. apply (float_less_irrefl (snd b)).
    eapply float_less_same_l; [apply float_same_sym|]; eassumption.
  - apply String.leb_antisym; assumption.
Qed.

Lemma insert_sorted_perm (x : string * pyfloat) (l : list (string * pyfloat)) :
  Permutation (insert_sorted x l) (x :: l).
Proof.
  induction l as [|y l IH]; simpl; [reflexivity|].
  destruct (key_lt y x); [|reflexivity].
  rewrite IH. apply perm_swap.
Qed.

Lemma py_sorted_perm (l : list (string * pyfloat)) :
  Permutation (py_sorted l) l.
Proof.
  induction l as [|x l IH]; simpl; [reflexivity|].
  rewrite insert_sorted_perm, IH. reflexivity.
Qed.

Lemma py_sorted_reverse_perm (l : list (string * pyfloat)) :
  Permutation (py_sorted_reverse l) l.
Proof.
  unfold py_sorted_reverse.
  rewrite <- Permutation_rev, py_sorted_perm, <- Permutation_rev. reflexivity.
Qed.

Lemma nan_free_perm (l1 l2 : list (string * pyfloat)) :
  Permutation l1 l2 -> nan_free l1 -> nan_free l2.
Proof. unfold nan_free. intros P H. rewrite <- P. exact H. Qed.

Lemma insert_sorted_sorted (x : string * pyfloat) (l : list (string * pyfloat)) :
  is_nan (snd x) = false -> nan_free l ->
  StronglySorted (flip ranks_before) l ->
  StronglySorted (flip ranks_before) (insert_sorted x l).
Proof.
  intros Nx Nl. induction 1 as [|y l Hs IH Hy]; simpl; [repeat constructor|].
  apply Forall_cons in Nl. destruct Nl as [Ny Nl].
  destruct (key_lt y x) eqn:E.
  - constructor; [exact (IH Nl)|].
    rewrite insert_sorted_perm. constructor; [|exact Hy].
    unfold flip. destruct (ranks_before_total x y Nx Ny) as [H|H]; [exact H|].
    apply key_lt_false_iff in H; [congruence | exact Ny | exact Nx].
  - apply key_lt_false_iff in E; [| exact Ny | exact Nx].
    constructor; [constructor; assumption|].
    constructor; [exact E|].
    eapply Forall_impl; [exact Hy|].
    unfold flip. intros z Hz. eapply ranks_before_trans; eassumption.
Qed.

Lemma py_sorted_sorted (l : list (string * pyfloat)) :
  nan_free l -> StronglySorted (flip ranks_before) (py_sorted l).
Proof.
  induction l as [|x l IH]; simpl; [constructor|]. intros N.
  apply Forall_cons in N. destruct N as [Nx Nl].
  apply insert_sorted_sorted; [exact Nx | | exact (IH Nl)].
  eapply nan_free_perm; [symmetry; apply py_sorted_perm | exact Nl].
Qed.

Lemma StronglySorted_rev_flip {A : Type} (R : A -> A -> Prop) (l : list A) :
  StronglySorted (flip R) l -> StronglySorted R (rev l).
Proof.
  induction 1 as [|x l Hs IH Hx]; simpl; [constructor|].
  apply StronglySorted_app_2; [| exact IH | repeat constructor].
  intros a b Ha Hb. apply list_elem_of_In in Ha. apply in_rev in Ha.
  apply list_elem_of_In in Hb. destruct Hb as [<-|[]].
  rewrite Forall_forall in Hx. apply Hx, list_elem_of_In, Ha.
Qed.

(** Without NaN the leaderboard is in ranking order. *)
Lemma py_sorted_reverse_sorted (l : list (string * pyfloat)) :
  nan_free l -> StronglySorted ranks_before (py_sorted_reverse l).
Proof.
  intros N. apply StronglySorted_rev_flip, py_sorted_sorted.
  eapply nan_free_perm; [apply Permutation_rev | exact N].
Qed.

(** With distinct keys and without NaN the leaderboard does not depend on
    the order in which the dictionary lists its items. *)
Lemma py_sorted_reverse_unique (l1 l2 : list (string * pyfloat)) :
  nan_free l1 -> NoDup (map fst l1) -> Permutation l1 l2 ->
  py_sorted_reverse l1 = py_sorted_reverse l2.
Proof.
  intros N Hnd Hp.
  apply (StronglySorted_unique_strong ranks_before);
    try (apply py_sorted_reverse_sorted;
         first [exact N | eapply nan_free_perm; eassumption]).
  - intros a b Ha Hb Hab Hba.
    rewrite py_sorted_reverse_perm in Ha.
    rewrite py_sorted_reverse_perm, <- Hp in Hb.
    pose proof (ranks_before_antisym a b Hab Hba) as Hk.
    apply list_elem_of_In in Ha, Hb.
    clear Hab Hba Hp N. induction l1 as [|c l1 IH]; [destruct Ha|].
    simpl in Hnd. apply NoDup_cons in Hnd. destruct Hnd as [Hc Hnd].
    destruct Ha as [->|Ha], Hb as [->|Hb]; auto.
    + exfalso. apply Hc. rewrite Hk. apply list_elem_of_In, in_map, Hb.
    + exfalso. apply Hc. rewrite <- Hk. apply list_elem_of_In, in_map, Ha.
  - rewrite !py_sorted_reverse_perm. exact Hp.
Qed.

(** A list on which the test [<] of the sort fails from each item to the
    one before it is a run already, and is returned as it is. *)
Lemma py_sorted_run (l : list (string * pyfloat)) :
  is_run l = true -> py_sorted l = l.
Proof.
  induction l as [|x [|y l] IH]; [reflexivity | reflexivity |].
  intros H. apply andb_true_iff in H. destruct H as [H1 H2].
  change (py_sorted (x :: y :: l)) with (insert_sorted x (py_sorted (y :: l))).
  rewrite (IH H2). simpl. apply negb_true_iff in H1. rewrite H1. reflexivity.
Qed.

(** * The retry loop of [train_stage_and_save] *)

Section RetryFacts.

Variable env : Env.
Variable self : HivemindGRPOTrainer.

(** When every train step fails with the same transient error, the loop of
    [n] rounds makes [n] attempts, each followed by [cleanup()] and a sleep
    of five seconds, and leaves [train_result] unbound. *)
Lemma train_attempts_all_transient (e : exn) (n : nat) (w : world) :
  is_transient e = true ->
  let x := train_attempts (with_trainer_train (fun _ => Some e) env) self n w in
  outcome x = Ok false /\
  train_count (events x) = n /\
  cleanup_count (events x) = n /\
  count_events (is_sleep 5) (events x) = n.
Proof.
  intros He. revert w. induction n as [|n IH]; intros w; [repeat split|].
  cbv zeta. cbn [train_attempts].
  rewrite outcome_try_except, events_try_except.
  unfold train_step. autorewrite with run. cbn [trainer_train with_trainer_train].
  autorewrite with run. rewrite He. unfold log, sleep.
  change (Qlt_bool 5 0) with false. cbv iota.
  autorewrite with run.
  match goal with
  | |- context [cleanup self ?w1] =>
      destruct (cleanup_run self w1) as (Ho & Hc & Ht & Hn & Hsl & _)
  end.
  rewrite Ho. autorewrite with run.
  match goal with
  | |- context [train_attempts _ self n ?w2] =>
      destruct (IH w2) as (Io & In_ & Ic & Is)
  end.
  unfold train_count, cleanup_count in *.
  rewrite Io. split; [reflexivity|].
  cbn [app count_events is_train_attempt is_cleanup is_sleep].
  rewrite !count_events_app.
  cbn [app count_events is_train_attempt is_cleanup is_sleep].
  rewrite Hc, Hn, Hsl, In_, Ic, Is.
  destruct e; try discriminate He; repeat split.
Qed.

(** An error outside the transient class leaves the loop at once. *)
Lemma train_attempts_fatal (e : exn) (n : nat) (w : world) :
  is_transient e = false ->
  trainer_train env (tick w) = Some e ->
  let x := train_attempts env self (S n) w in
  outcome x = Raise e /\
  events x = [ETrain (node_round_num w) (node_stage_num w)].
Proof.
  intros He Ht. cbv zeta. cbn [train_attempts].
  rewrite outcome_try_except, events_try_except.
  unfold train_step. autorewrite with run. rewrite Ht.
  autorewrite with run. rewrite He. split; reflexivity.
Qed.

End RetryFacts.

(** C2, at the failing input: a train step that raises [BlockingIOError]
    (or [EOFError]) on every attempt is attempted [MAX_TRAIN_FAILS] times,
    each attempt followed by [cleanup()] and a sleep of five seconds; the
    call then ends with an [UnboundLocalError] for [train_result], not with
    the transient error. *)
Theorem train_stage_and_save_transient_exhausted
    (env : Env) (self : HivemindGRPOTrainer) (w : world) (eof : bool) :
  let e := if eof then EOFError else BlockingIOError in
  let env' := with_trainer_train (fun _ => Some e) env in
  let x := train_stage_and_save env' self w in
  outcome x = Raise UnboundLocalError /\
  train_count (events x) = MAX_TRAIN_FAILS /\
  cleanup_count (events x) = MAX_TRAIN_FAILS /\
  count_events (is_sleep 5) (events x) = MAX_TRAIN_FAILS.
Proof.
  cbv zeta. unfold train_stage_and_save.
  assert (He : is_transient (if eof then EOFError else BlockingIOError) = true)
    by (destruct eof; reflexivity).
  destruct (train_attempts_all_transient env self _ MAX_TRAIN_FAILS w He)
    as (Ho & Hn & Hc & Hs).
  rewrite outcome_bind, events_bind, Ho.
  rewrite outcome_bind, events_bind. autorewrite with run.
  rewrite !app_nil_r. auto.
Qed.

(** An error outside the transient class ends [train_stage_and_save] at the
    first attempt, without [cleanup()] or sleep. *)
Lemma train_stage_and_save_fatal
    (env : Env) (self : HivemindGRPOTrainer) (w : world) (e : exn) :
  is_transient e = false ->
  trainer_train env (tick w) = Some e ->
  outcome (train_stage_and_save env self w) = Raise e /\
  events (train_stage_and_save env self w) =
    [ETrain (node_round_num w) (node_stage_num w)].
Proof.
  intros He Ht. unfold train_stage_and_save.
  destruct (train_attempts_fatal env self e 4 w He Ht) as [Ho Hev].
  cbv zeta in Ho, Hev. change MAX_TRAIN_FAILS with 5%nat.
  rewrite outcome_bind, events_bind, Ho, Hev. split; reflexivity.
Qed.

(** * Publishing the leaderboard *)

Section LeaderboardFacts.

Variable env : Env.
Variable self : HivemindGRPOTrainer.

(** The run of [publish_leaderboard], by the truth value of the snapshot. *)
Lemma publish_leaderboard_run (w : world) :
  let r := node_round_num w in
  let s := node_stage_num w in
  let snapshot := get_dht_value env (tick w) (rewards_key r s) in
  outcome (publish_leaderboard env self w) = Ok tt /\
  events (publish_leaderboard env self w) =
    EGetValue (rewards_key r s) ::
    (if truthy snapshot
     then [EStore (leaderboard_key r s) None
             (VLeaderboard
                (py_sorted_reverse
                   (match snapshot with Some d => d | None => [] end)))
             (get_dht_time env (S (tick w)) + out_expiration self)%Q]
     else [ELog (LogCantRetrieve r (s - 1))]).
Proof.
  cbv zeta. unfold publish_leaderboard, expiration, log.
  autorewrite with run.
  destruct (truthy (get_dht_value env (tick w) _)); autorewrite with run;
    split; reflexivity.
Qed.

(** A leaderboard that is written is never empty. *)
Lemma publish_leaderboard_never_empty (w : world) :
  Forall (fun e => match e with
                   | EStore (leaderboard_key _ _) _ (VLeaderboard l) _ =>
                       l <> []
                   | EStore (leaderboard_key _ _) _ _ _ => False
                   | _ => True
                   end)
         (events (publish_leaderboard env self w)).
Proof.
  destruct (publish_leaderboard_run w) as [_ He]. rewrite He.
  constructor; [exact I|].
  destruct (get_dht_value env (tick w) _) as [[|x d]|]; simpl;
    repeat constructor.
  intros H. apply (f_equal (@length _)) in H.
  pose proof (Permutation_length (py_sorted_reverse_perm (x :: d))) as L.
  rewrite H in L. discriminate L.
Qed.

(** Apart from the steps on the cadence, the loss hook still publishes the
    leaderboard when the node is the coordinator. *)
Lemma compute_loss_off_cadence (w : world) :
  (state_global_step w mod CADENCE_OF_UPDATE_STEPS =? 0) = false ->
  events (compute_loss env self w) =
    ECall super_compute_loss ::
    (if is_coordinator self then events (publish_leaderboard env self w)
     else []).
Proof.
  intros H. unfold compute_loss, call. autorewrite with run. rewrite H.
  autorewrite with run. destruct (is_coordinator self); reflexivity.
Qed.

End LeaderboardFacts.

(** C4, as amended: when the rewards snapshot holds entries and none of
    its rewards is NaN, [publish_leaderboard] stores under the leaderboard
    key exactly the entries of the snapshot, in descending order of
    [(reward, worker key)]; the list stored is the same for every order in
    which the snapshot lists its entries. *)
Theorem publish_leaderboard_sorted
    (env : Env) (self : HivemindGRPOTrainer) (w : world)
    (snapshot : list (string * pyfloat)) :
  let r := node_round_num w in
  let s := node_stage_num w in
  get_dht_value env (tick w) (rewards_key r s) = Some snapshot ->
  snapshot <> [] ->
  NoDup (map fst snapshot) ->
  nan_free snapshot ->
  exists leaderboard,
    events (publish_leaderboard env self w) =
      [EGetValue (rewards_key r s);
       EStore (leaderboard_key r s) None (VLeaderboard leaderboard)
         (get_dht_time env (S (tick w)) + out_expiration self)%Q] /\
    Permutation leaderboard snapshot /\
    StronglySorted ranks_before leaderboard /\
    forall snapshot' : list (string * pyfloat),
      Permutation snapshot' snapshot ->
      py_sorted_reverse snapshot' = leaderboard.
Proof.
  cbv zeta. intros Hget Hne Hnd Hnan.
  exists (py_sorted_reverse snapshot).
  destruct (publish_leaderboard_run env self w) as [_ He].
  rewrite He, Hget. destruct snapshot as [|x d]; [congruence|].
  split; [reflexivity|].
  split; [apply py_sorted_reverse_perm|].
  split; [apply py_sorted_reverse_sorted; exact Hnan|].
  intros snapshot' Hp. symmetry.
  apply py_sorted_reverse_unique; [exact Hnan | exact Hnd | symmetry; exact Hp].
Qed.

(** C4, the counterexample: a snapshot in which one reward is NaN.  On
    the reversed items, which is what the sort works on, [<] is false from
    each item to the one before it, since one of the two rewards is NaN: the
    sort takes them to be in order and the items are stored in the order in
    which the snapshot lists them, first anna with reward 1, last cleo with
    reward 2.  The same snapshot listed in the opposite order is stored in
    the opposite order. *)
Lemma publish_leaderboard_nan_unsorted :
  let self := swarm_trainer true [ok_stage] 1 in
  let stored (snapshot : list (string * pyfloat)) :=
    events (publish_leaderboard
              (with_get_dht_value (fun _ _ => Some snapshot) calm_env)
              self fresh_world) in
  NoDup (map fst nan_rewards) /\
  Permutation (rev nan_rewards) nan_rewards /\
  is_run (rev nan_rewards) = true /\
  is_run nan_rewards = true /\
  stored nan_rewards =
    [EGetValue (rewards_key 0 0);
     EStore (leaderboard_key 0 0) None
       (VLeaderboard [("anna"%string, Finite 1); ("bert"%string, NaN);
                      ("cleo"%string, Finite 2)])
       (14500%Q)] /\
  stored (rev nan_rewards) =
    [EGetValue (rewards_key 0 0);
     EStore (leaderboard_key 0 0) None
       (VLeaderboard [("cleo"%string, Finite 2); ("bert"%string, NaN);
                      ("anna"%string, Finite 1)])
       (14500%Q)] /\
  float_less (Finite 1) (Finite 2) /\
  key_lt ("anna"%string, Finite 1) ("cleo"%string, Finite 2) = true.
Proof.
  cbv zeta. split; [|split; [|repeat split]].
  - apply (bool_decide_unpack _). vm_compute. exact I.
  - symmetry. apply Permutation_rev.
Qed.

(** C7: when the rewards snapshot is absent, or holds no entry,
    [publish_leaderboard] reads the store, logs, and stores nothing. *)
Theorem publish_leaderboard_skips_absent
    (env : Env) (self : HivemindGRPOTrainer) (w : world) :
  let r := node_round_num w in
  let s := node_stage_num w in
  let snapshot := get_dht_value env (tick w) (rewards_key r s) in
  snapshot = None \/ snapshot = Some [] ->
  let x := publish_leaderboard env self w in
  outcome x = Ok tt /\
  events x = [EGetValue (rewards_key r s); ELog (LogCantRetrieve r (s - 1))] /\
  count_events is_store (events x) = 0%nat /\
  count_events is_leaderboard_store (events x) = 0%nat.
Proof.
  cbv zeta. intros H.
  destruct (publish_leaderboard_run env self w) as [Ho He].
  rewrite Ho, He. destruct H as [-> | ->]; repeat split.
Qed.

(** C6, at the failing input: on optimizer step 1, which is not a multiple
    of [CADENCE_OF_UPDATE_STEPS], the loss hook of a coordinator stores
    neither outputs nor rewards, but it does read the rewards and store the
    leaderboard. *)
Theorem compute_loss_publishes_off_cadence :
  let env := with_get_dht_value (fun _ _ => Some sample_rewards) calm_env in
  let self := swarm_trainer true [ok_stage] 1 in
  let w := with_global_step 1 fresh_world in
  (state_global_step w mod CADENCE_OF_UPDATE_STEPS =? 0) = false /\
  events (compute_loss env self w) =
    [ECall super_compute_loss;
     EGetValue (rewards_key 0 0);
     EStore (leaderboard_key 0 0) None
       (VLeaderboard [("bert"%string, Finite 2); ("cleo"%string, Finite 1);
                      ("anna"%string, Finite 1)])
       (14500%Q)] /\
  count_events is_leaderboard_store (events (compute_loss env self w)) = 1%nat.
Proof. cbv zeta. repeat split. Qed.

(** * [train_stages]: cleanup *)

(** C5, as amended: a call of [train_stages] runs [cleanup()] once for
    every transient training failure it retries and, when its stages all
    complete, once more at the end; when a stage raises an error that leaves
    the call, the [cleanup()] at the end is not run. *)
Theorem train_stages_cleanup_count
    (env : Env) (self : HivemindGRPOTrainer) (round start : Z) (coord : bool)
    (w : world) :
  let x := train_stages env self round start coord w in
  let remaining := py_slice_from (stages self) start in
  outcome x <> OutOfFuel /\
  (outcome x = Ok tt ->
   cleanup_count (events x) = S (transient_count (events x))) /\
  (forall e, outcome x = Raise e -> remaining <> [] ->
   cleanup_count (events x) = transient_count (events x)).
Proof.
  cbv zeta.
  destruct (train_stages_decompose env self round start coord w)
    as (tail & -> & _ & Htail).
  autorewrite with run.
  set (w0 := with_round_num round w).
  destruct (stage_loop_balanced env self round start coord
              (py_slice_from (stages self) start) 0 false w0) as [Hfuel Hbal].
  pose proof (stage_loop_nil_bound env self round start coord
                (py_slice_from (stages self) start) 0 false w0) as Hnil.
  unfold cleanup_balanced in Hbal.
  destruct (outcome (stage_loop env self round start coord _ 0 false w0))
    as [b|e|]; [| |congruence].
  - destruct (Htail b (final (stage_loop env self round start coord
                 (py_slice_from (stages self) start) 0 false w0)))
      as (Hc & Ht & Ho).
    rewrite Ho. unfold cleanup_count, transient_count in *.
    rewrite !count_events_app, Hc, Ht, Hbal.
    destruct b.
    + split; [discriminate|]. split; [intros _; simpl; lia | discriminate].
    + destruct (Hnil eq_refl) as [Hl _].
      split; [discriminate|]. split; [discriminate|].
      intros e _ Hne. contradiction.
  - rewrite app_nil_r. split; [discriminate|]. split; [discriminate|].
    intros e' _ _. exact Hbal.
Qed.

(** Whatever [_train] does, [train] leaves the distributed process group
    destroyed: this release, and only this one, is in a [finally]. *)
Lemma train_destroys_process_group
    (env : Env) (self : HivemindGRPOTrainer) (fuel : nat) (w : world) :
  outcome (train env self fuel w) <> OutOfFuel ->
  dist_initialized (final (train env self fuel w)) = false.
Proof.
  unfold train, try_finally, outcome, final.
  destruct (try_except _ _ w) as [[[[]|e|] w1] t1]; simpl; [| |congruence];
    unfold bind, get_world, when, call, emit, modify, ret;
    destruct (dist_initialized w1) eqn:E; simpl; intros _;
    first [reflexivity | exact E].
Qed.

(** C5, as stated, fails on both paths: a stage whose datasets cannot be
    built leaves [train_stages] without any [cleanup()], and a call that
    succeeds after one transient failure has run [cleanup()] twice. *)
Lemma train_stages_cleanup_not_once :
  (let x := train_stages calm_env (swarm_trainer false [broken_stage] 1)
              0 0 false fresh_world in
   outcome x = Raise DatasetGenerationError /\
   cleanup_count (events x) = 0%nat) /\
  (let env := with_trainer_train
                (fun n => if (n =? 1)%nat then Some EOFError else None)
                calm_env in
   let x := train_stages env (swarm_trainer false [ok_stage] 1)
              0 0 false fresh_world in
   outcome x = Ok tt /\
   cleanup_count (events x) = 2%nat).
Proof. cbv zeta. repeat split. Qed.

(** * [train_stages]: the progress pointer *)

Lemma advance_cons (seen : option (Z * Z)) (e : event) (t : list event) :
  advance seen (e :: t) =
  advance (match pointer_write e with Some p => Some p | None => seen end) t.
Proof.
  unfold advance, last_pointer. simpl.
  destruct (pointer_write e) as [p|]; [|reflexivity].
  rewrite last_cons. destruct (last (pointer_writes t)); reflexivity.
Qed.

Lemma advance_app (seen : option (Z * Z)) (t1 t2 : list event) :
  advance seen (t1 ++ t2) = advance (advance seen t1) t2.
Proof.
  revert seen. induction t1 as [|e t1 IH]; intros seen; simpl.
  - reflexivity.
  - rewrite !advance_cons. apply IH.
Qed.

Lemma advance_None (t : list event) : advance None t = last_pointer t.
Proof. unfold advance. destruct (last_pointer t); reflexivity. Qed.

Lemma pointer_guards_app (seen : option (Z * Z)) (t1 t2 : list event) :
  pointer_guards seen (t1 ++ t2) <->
  pointer_guards seen t1 /\ pointer_guards (advance seen t1) t2.
Proof.
  revert seen. induction t1 as [|e t1 IH]; intros seen; simpl.
  - tauto.
  - rewrite advance_cons, IH. tauto.
Qed.

Lemma pointer_writes_quiet (t : list event) :
  Forall quiet_event t -> pointer_writes t = [].
Proof.
  induction 1 as [|e t [He _] _ IH]; simpl; [reflexivity|].
  rewrite He. exact IH.
Qed.

Lemma pointer_writes_body (r s : Z) (t : list event) :
  Forall (body_event r s) t -> pointer_writes t = [].
Proof.
  induction 1 as [|e t [He _] _ IH]; simpl; [reflexivity|].
  rewrite He. exact IH.
Qed.

Lemma pointer_guards_quiet (seen : option (Z * Z)) (t : list event) :
  Forall quiet_event t -> pointer_guards seen t.
Proof.
  induction 1 as [|e t [He Hk] _ IH]; simpl; [exact I|].
  rewrite He. split; [|exact IH]. destruct e; tauto.
Qed.

Lemma pointer_guards_body (r s : Z) (t : list event) :
  Forall (body_event r s) t -> pointer_guards (Some (r, s)) t.
Proof.
  induction 1 as [|e t [He Hk] _ IH]; simpl; [exact I|].
  rewrite He. split; [|exact IH].
  destruct e; try tauto. destruct Hk as [-> ->]. reflexivity.
Qed.

Lemma advance_body (r s : Z) (seen : option (Z * Z)) (t : list event) :
  Forall (body_event r s) t -> advance seen t = seen.
Proof.
  intros H. unfold advance, last_pointer.
  rewrite (pointer_writes_body r s t H). reflexivity.
Qed.

(** In coordinator mode the stage loop guards every stage by its pointer. *)
Lemma stage_trace_guards (round start i : Z) (t : list event) :
  stage_trace round start true i t ->
  forall seen, pointer_guards seen t.
Proof.
  induction 1 as [i | i exp body rest Hb _ IH]; intros seen; [exact I|].
  simpl. split; [exact I|]. split; [exact I|]. split; [reflexivity|].
  apply pointer_guards_app. split; [apply pointer_guards_body, Hb|].
  apply IH.
Qed.

(** The pointers written by the stage loop: all of the round, with stage
    numbers that increase. *)
Lemma stage_trace_writes (round start i : Z) (t : list event) :
  stage_trace round start true i t ->
  Forall (fun p => fst p = round /\ start + i <= snd p) (pointer_writes t) /\
  StronglySorted pointer_lt (pointer_writes t).
Proof.
  induction 1 as [i | i exp body rest Hb _ [IH1 IH2]].
  - split; constructor.
  - simpl. rewrite pointer_writes_app, (pointer_writes_body _ _ _ Hb). simpl.
    split.
    + constructor; [simpl; lia|].
      eapply Forall_impl; [exact IH1|]. simpl. intros p [? ?]. lia.
    + constructor; [exact IH2|].
      eapply Forall_impl; [exact IH1|]. intros p [Hp1 Hp2].
      right. simpl. lia.
Qed.

Section PointerFacts.

Variable env : Env.
Variable self : HivemindGRPOTrainer.

(** The events of [train_stages]: those of the stage loop, then events that
    concern neither stages nor the pointer. *)
Lemma train_stages_trace (round start : Z) (coord : bool) (w : world) :
  exists ts tl,
    events (train_stages env self round start coord w) = ts ++ tl /\
    stage_trace round start coord 0 ts /\
    Forall quiet_event tl.
Proof.
  destruct (train_stages_decompose env self round start coord w)
    as (tail & -> & Hq & _).
  autorewrite with run.
  set (w0 := with_round_num round w).
  destruct (stage_loop_trace env self round start coord
              (py_slice_from (stages self) start) 0 false w0 eq_refl)
    as [Ht _].
  cbn [app]. eexists _, _. split; [reflexivity|]. split; [exact Ht|].
  destruct (outcome (stage_loop env self round start coord _ 0 false w0));
    try constructor.
  apply Hq.
Qed.

End PointerFacts.

(** C1: in coordinator mode, at every dataset construction and every train
    step of [train_stages round start], for stage [s] say, the pointer seen
    stored under the round/stage key is [(round, s)]: the store of the stage
    precedes them. *)
Theorem train_stages_pointer_first
    (env : Env) (self : HivemindGRPOTrainer) (round start : Z) (w : world)
    (t1 t2 : list event) (e : event) (r s : Z) :
  events (train_stages env self round start true w) = t1 ++ e :: t2 ->
  e = EDatasetsFn r s \/ e = ETrain r s ->
  r = round /\ last_pointer t1 = Some (round, s).
Proof.
  intros Hev He.
  destruct (train_stages_trace env self round start true w)
    as (ts & tl & Hsplit & Hts & Htl).
  assert (Hg : pointer_guards None (t1 ++ e :: t2)).
  { rewrite <- Hev, Hsplit. apply pointer_guards_app.
    split; [apply stage_trace_guards with (1 := Hts)|].
    apply pointer_guards_quiet, Htl. }
  apply pointer_guards_app in Hg. destruct Hg as [_ Hg].
  rewrite advance_None in Hg. simpl in Hg. destruct Hg as [Hg _].
  assert (Hl : last_pointer t1 = Some (r, s)).
  { destruct He as [-> | ->]; exact Hg. }
  assert (Hr : r = round).
  { destruct (stage_trace_writes round start 0 ts Hts) as [Hw _].
    assert (Hin : (r, s) ∈ pointer_writes (ts ++ tl)).
    { rewrite <- Hsplit, Hev, pointer_writes_app.
      apply elem_of_app. left. apply last_Some_elem_of. exact Hl. }
    rewrite pointer_writes_app, (pointer_writes_quiet tl Htl), app_nil_r in Hin.
    rewrite Forall_forall in Hw. apply Hw in Hin. simpl in Hin. tauto. }
  subst r. split; [reflexivity | exact Hl].
Qed.

(** * The stages that [train_stages] runs *)

Lemma datasets_calls_app (t1 t2 : list event) :
  datasets_calls (t1 ++ t2) = datasets_calls t1 ++ datasets_calls t2.
Proof.
  induction t1 as [|e t1 IH]; simpl; [reflexivity|].
  destruct e; simpl; rewrite IH; reflexivity.
Qed.

Lemma datasets_calls_body (r s : Z) (t : list event) :
  Forall (body_event r s) t -> datasets_calls t = [].
Proof.
  induction 1 as [|e t [_ He] _ IH]; simpl; [reflexivity|].
  destruct e; try exact IH. contradiction.
Qed.

Lemma datasets_calls_quiet (t : list event) :
  Forall quiet_event t -> datasets_calls t = [].
Proof.
  induction 1 as [|e t [_ He] _ IH]; simpl; [reflexivity|].
  destruct e; try exact IH. contradiction.
Qed.

Lemma stage_positions_S (r s : Z) (k : nat) :
  (r, s) :: stage_positions r (s + 1) k = stage_positions r s (S k).
Proof.
  unfold stage_positions. cbn [seq map]. rewrite Z.add_0_r. f_equal.
  rewrite <- seq_shift, map_map. apply map_ext. intros j. f_equal. lia.
Qed.

Section StagesRun.

Variable env : Env.
Variable self : HivemindGRPOTrainer.

Lemma stage_loop_cons (round start : Z) (coord : bool) (stage : Stage)
    (rest : list Stage) (i : Z) (b : bool) (w : world) :
  let x := stage_loop env self round start coord (stage :: rest) i b w in
  exists (pre : list event) (n : nat) (w2 : world),
    datasets_calls pre = [] /\ finished_calls pre = [] /\
    match datasets_fn stage n round (start + i) with
    | Some e =>
        outcome x = Raise e /\
        events x = pre ++ [EDatasetsFn round (start + i)]
    | None =>
        let y := train_stage_and_save env self w2 in
        match outcome y with
        | Ok _ =>
            let z := stage_loop env self round start coord rest (i + 1) true
                       (final y) in
            outcome x = outcome z /\
            events x =
              pre ++ EDatasetsFn round (start + i) ::
              ECall create_publishing_trainer ::
              events y ++ ELog (LogFinished round (start + i)) :: events z
        | Raise e =>
            outcome x = Raise e /\
            events x =
              pre ++ EDatasetsFn round (start + i) ::
              ECall create_publishing_trainer :: events y
        | OutOfFuel => False
        end
    end.
Proof.
  cbv zeta.
  exists ((if coord
           then [EStore ROUND_STAGE_NUMBER_KEY None
                   (VPointer (node_round_num w) (start + i))
                   (get_dht_time env (tick w) + out_expiration self)%Q]
           else []) ++ [ELog (LogTraining round (start + i))]),
         (if coord then S (tick w) else tick w),
         (with_stage_rewards 0
            (next_tick (if coord then next_tick (with_stage_num (start + i) w)
                        else with_stage_num (start + i) w))).
  split; [destruct coord; reflexivity|].
  split; [destruct coord; reflexivity|].
  cbn [stage_loop]. unfold expiration, log, call.
  destruct coord; autorewrite with run; simpl final; simpl tick;
    (destruct (datasets_fn stage _ round (start + i)) as [e|];
     autorewrite with run; [split; reflexivity|]).
  all: match goal with
       | |- context [train_stage_and_save env self ?w2] =>
           destruct (train_stage_and_save_stays env self w2) as [Hf _];
           destruct (outcome (train_stage_and_save env self w2)) as [[]|e|];
           [ split; reflexivity
           | split; [reflexivity | simpl; rewrite app_nil_r; reflexivity]
           | congruence ]
       end.
Qed.

Lemma stage_loop_progress (round start : Z) (coord : bool) (l : list Stage) :
  forall i b w,
    let x := stage_loop env self round start coord l i b w in
    exists k : nat,
      datasets_calls (events x) = stage_positions round (start + i) k /\
      (k <= length l)%nat /\
      match outcome x with
      | Ok _ =>
          k = length l /\
          finished_calls (events x) = stage_positions round (start + i) k
      | Raise _ =>
          (1 <= k)%nat /\
          finished_calls (events x) =
            stage_positions round (start + i) (pred k)
      | OutOfFuel => False
      end /\
      forall (j : nat) (stage : Stage) (e : exn),
        l !! j = Some stage ->
        (forall n, datasets_fn stage n round (start + i + Z.of_nat j) = Some e) ->
        (k <= S j)%nat /\
        (exists e', outcome x = Raise e') /\
        (k = S j -> outcome x = Raise e).
Proof.
  induction l as [|stage rest IH]; intros i b w; cbv zeta.
  - exists 0%nat. simpl. repeat split; try reflexivity; try lia; discriminate.
  - destruct (stage_loop_cons round start coord stage rest i b w)
      as (pre & n & w2 & Hd & Hfin & H).
    cbv zeta in H.
    destruct (datasets_fn stage n round (start + i)) as [e|] eqn:En.
    + destruct H as [-> ->]. exists 1%nat.
      rewrite datasets_calls_app, finished_calls_app, Hd, Hfin.
      unfold stage_positions. simpl. rewrite Z.add_0_r.
      split; [reflexivity|]. split; [lia|]. split; [split; [lia|reflexivity]|].
      intros [|j] stage' e' Hl Hfail.
      * simpl in Hl. inversion Hl; subst stage'.
        rewrite Z.add_0_r in Hfail. rewrite Hfail in En. inversion En; subst e'.
        split; [lia|]. split; [eexists; reflexivity | reflexivity].
      * split; [lia|]. split; [eexists; reflexivity | lia].
    + destruct (train_stage_and_save_no_finish env self w2) as [_ Hnf].
      destruct (train_stage_and_save_stays env self w2) as (_ & _ & _ & Hb).
      unfold no_finish in Hnf.
      destruct (outcome (train_stage_and_save env self w2)) as [[]|e|];
        [| |contradiction].
      * destruct H as [Ho ->]. rewrite Ho.
        destruct (IH (i + 1) true (final (train_stage_and_save env self w2)))
          as (k & Hk1 & Hk2 & Hk3 & Hk4).
        cbv zeta in Hk1, Hk2, Hk3, Hk4.
        replace (start + (i + 1)) with (start + i + 1) in * by lia.
        exists (S k).
        rewrite datasets_calls_app, finished_calls_app, Hd, Hfin.
        cbn [app datasets_calls finished_calls].
        rewrite datasets_calls_app, finished_calls_app, Hnf,
          (datasets_calls_body _ _ _ Hb).
        cbn [app datasets_calls finished_calls]. rewrite Hk1.
        split; [apply stage_positions_S|].
        split; [simpl; lia|].
        split.
        -- destruct (outcome (stage_loop env self round start coord rest
                                (i + 1) true _)) as [b'|e'|].
           ++ destruct Hk3 as [-> ->]. split; [reflexivity|].
              apply stage_positions_S.
           ++ destruct Hk3 as [Hk ->]. split; [lia|].
              destruct k as [|k]; [lia|]. apply stage_positions_S.
           ++ exact Hk3.
        -- intros [|j] stage' e' Hl Hfail.
           ++ simpl in Hl. inversion Hl; subst stage'.
              rewrite Z.add_0_r in Hfail. rewrite Hfail in En. discriminate.
           ++ simpl in Hl.
              destruct (Hk4 j stage' e' Hl) as (A & B & C).
              { intros m. rewrite <- (Hfail m). f_equal. lia. }
              split; [lia|]. split; [exact B|]. intros E. apply C. lia.
      * destruct H as [-> ->]. exists 1%nat.
        rewrite datasets_calls_app, finished_calls_app, Hd, Hfin.
        cbn [app datasets_calls finished_calls].
        rewrite Hnf, (datasets_calls_body _ _ _ Hb).
        unfold stage_positions. simpl. rewrite Z.add_0_r.
        split; [reflexivity|]. split; [lia|].
        split; [split; [lia|reflexivity]|].
        intros [|j] stage' e' Hl Hfail.
        -- simpl in Hl. inversion Hl; subst stage'.
           rewrite Z.add_0_r in Hfail. rewrite Hfail in En. discriminate.
        -- split; [lia|]. split; [eexists; reflexivity | lia].
Qed.

(** How far [train_stages] gets through the remaining stages. *)
Lemma train_stages_datasets (round start : Z) (coord : bool) (w : world) :
  let x := train_stages env self round start coord w in
  let remaining := py_slice_from (stages self) start in
  exists k : nat,
    datasets_calls (events x) = stage_positions round start k /\
    (k <= length remaining)%nat /\
    (outcome x = Ok tt -> k = length remaining).
Proof.
  cbv zeta.
  destruct (train_stages_tail env self round start coord)
    as (tail & -> & Hq & _ & _).
  autorewrite with run. cbn [app].
  destruct (stage_loop_progress round start coord
              (py_slice_from (stages self) start) 0 false
              (with_round_num round w)) as (k & Hk1 & Hk2 & Hk3 & _).
  cbv zeta in Hk1, Hk2, Hk3.
  replace (start + 0) with start in * by lia.
  set (loop := stage_loop env self round start coord
                 (py_slice_from (stages self) start) 0 false
                 (with_round_num round w)) in *.
  exists k. rewrite datasets_calls_app, Hk1.
  destruct (outcome loop) as [b|e|].
  - rewrite (datasets_calls_quiet _ (proj2 (proj2 (Hq b (final loop))))).
    rewrite app_nil_r. split; [reflexivity|]. split; [exact Hk2|].
    intros _. apply Hk3.
  - rewrite app_nil_r. split; [reflexivity|]. split; [exact Hk2|].
    discriminate.
  - contradiction.
Qed.

End StagesRun.

(** X20: [train_stages round start] builds the datasets of the remaining
    stages in the order of the schedule, each under its own stage number
    [start], [start + 1], ..., once each.  When it returns without error it
    has built and finished every remaining stage.  When it raises, every
    stage built but the last was finished, the last was not, and no stage
    is started after it: the call stops at the first stage that fails.  In
    particular it never gets past a stage whose [datasets_fn] always
    raises: the call then raises, with the error of that stage if it got
    that far. *)
Theorem train_stages_runs_remaining_stages
    (env : Env) (self : HivemindGRPOTrainer) (round start : Z) (coord : bool)
    (w : world) :
  let x := train_stages env self round start coord w in
  let remaining := py_slice_from (stages self) start in
  exists k : nat,
    datasets_calls (events x) = stage_positions round start k /\
    (k <= length remaining)%nat /\
    match outcome x with
    | Ok _ =>
        k = length remaining /\
        finished_calls (events x) = stage_positions round start k
    | Raise _ =>
        (remaining <> [] -> (1 <= k)%nat) /\
        finished_calls (events x) = stage_positions round start (pred k)
    | OutOfFuel => False
    end /\
    forall (j : nat) (stage : Stage) (e : exn),
      remaining !! j = Some stage ->
      (forall n, datasets_fn stage n round (start + Z.of_nat j) = Some e) ->
      (k <= S j)%nat /\
      (exists e', outcome x = Raise e') /\
      (k = S j -> outcome x = Raise e).
Proof.
  cbv zeta.
  destruct (train_stages_tail env self round start coord)
    as (tail & -> & Hq & Hnf & Hc).
  autorewrite with run. cbn [app].
  destruct (stage_loop_progress env self round start coord
              (py_slice_from (stages self) start) 0 false
              (with_round_num round w)) as (k & Hk1 & Hk2 & Hk3 & Hk4).
  cbv zeta in Hk1, Hk2, Hk3, Hk4.
  replace (start + 0) with start in * by lia.
  pose proof (stage_loop_nil_bound env self round start coord
                (py_slice_from (stages self) start) 0 false
                (with_round_num round w)) as Hnil.
  set (loop := stage_loop env self round start coord
                 (py_slice_from (stages self) start) 0 false
                 (with_round_num round w)) in *.
  exists k. rewrite datasets_calls_app, finished_calls_app, Hk1.
  assert (Ht : forall b,
            datasets_calls (events (tail b (final loop))) = [] /\
            finished_calls (events (tail b (final loop))) = []).
  { intros b. split; [apply datasets_calls_quiet, Hq | apply Hnf]. }
  destruct (outcome loop) as [b|e|] eqn:Eo.
  - destruct (Ht b) as [-> ->]. rewrite !app_nil_r.
    destruct (Hc b (final loop)) as (_ & _ & ->).
    destruct Hk3 as [Hk3 Hk3'].
    split; [reflexivity|]. split; [exact Hk2|]. split.
    + destruct b.
      * split; assumption.
      * destruct (Hnil eq_refl) as [E _]. rewrite E in *. simpl in Hk3.
        subst k. split; [congruence | exact Hk3'].
    + intros j stage e Hl Hfail.
      destruct (Hk4 j stage e Hl Hfail) as (A & [e' B] & C).
      discriminate.
  - rewrite !app_nil_r. destruct Hk3 as [Hk3 Hk3'].
    split; [reflexivity|]. split; [exact Hk2|].
    split; [split; [intros _; exact Hk3 | exact Hk3']|].
    intros j stage e' Hl Hfail.
    destruct (Hk4 j stage e' Hl Hfail) as (A & _ & C).
    split; [exact A|]. split; [eexists; reflexivity|].
    intros E. apply C in E. congruence.
  - contradiction.
Qed.

(** * [coordinator_train] *)

Lemma pointer_lt_rounds (l : list (Z * Z)) :
  StronglySorted pointer_lt l -> StronglySorted Z.le (map fst l).
Proof.
  induction 1 as [|p l _ IH Hp]; simpl; constructor; [exact IH|].
  apply Forall_map. eapply Forall_impl; [exact Hp|].
  intros q [H|[H _]]; simpl; lia.
Qed.

Section CoordinatorFacts.

Variable env : Env.
Variable self : HivemindGRPOTrainer.

(** The pointers written by one round of the coordinator. *)
Lemma train_stages_writes (round start : Z) (w : world) :
  let writes :=
    pointer_writes (events (train_stages env self round start true w)) in
  Forall (fun p => fst p = round) writes /\ StronglySorted pointer_lt writes.
Proof.
  cbv zeta.
  destruct (train_stages_trace env self round start true w)
    as (ts & tl & -> & Hts & Htl).
  rewrite pointer_writes_app, (pointer_writes_quiet tl Htl), app_nil_r.
  destruct (stage_trace_writes round start 0 ts Hts) as [H1 H2].
  split; [|exact H2].
  eapply Forall_impl; [exact H1|]. simpl. tauto.
Qed.

Lemma coordinator_loop_writes (fuel : nat) (start_time : Q) :
  forall (k : Z) (w : world),
    let writes :=
      pointer_writes (events (coordinator_loop env self fuel start_time k w)) in
    Forall (fun p => k <= fst p) writes /\ StronglySorted pointer_lt writes.
Proof.
  induction fuel as [|fuel IH]; intros k w; cbv zeta; cbn [coordinator_loop].
  - split; constructor.
  - destruct (k <? max_rounds self); [|split; constructor].
    unfold log, call. autorewrite with run.
    destruct (Qlt_bool _ _); [|split; constructor].
    autorewrite with run. cbn [app pointer_writes pointer_write].
    rewrite pointer_writes_app.
    destruct (train_stages_writes k 0 (next_tick w)) as [H1 H2].
    set (tail := match outcome (train_stages env self k 0 true (next_tick w))
                 with Ok _ => _ | _ => [] end).
    assert (Ht : Forall (fun p => k + 1 <= fst p) (pointer_writes tail) /\
                 StronglySorted pointer_lt (pointer_writes tail)).
    { subst tail.
      destruct (outcome (train_stages env self k 0 true (next_tick w)));
        try (split; constructor).
      destruct (k + 1 =? max_rounds self); [split; constructor|].
      apply IH. }
    destruct Ht as [Ht1 Ht2]. split.
    + apply Forall_app. split.
      * eapply Forall_impl; [exact H1|]. simpl. lia.
      * eapply Forall_impl; [exact Ht1|]. simpl. lia.
    + apply StronglySorted_app_2; [|exact H2|exact Ht2].
      intros p q Hp Hq. rewrite Forall_forall in H1, Ht1.
      apply H1 in Hp. apply Ht1 in Hq. left. lia.
Qed.

(** The loop ends within the fuel that [coordinator_train] gives it. *)
Lemma coordinator_loop_total (fuel : nat) (start_time : Q) :
  forall (k : Z) (w : world),
    (Z.to_nat (max_rounds self - k) < fuel)%nat ->
    outcome (coordinator_loop env self fuel start_time k w) <> OutOfFuel.
Proof.
  induction fuel as [|fuel IH]; intros k w Hf; [lia|].
  cbn [coordinator_loop].
  destruct (k <? max_rounds self) eqn:Hk; [|discriminate].
  apply Z.ltb_lt in Hk.
  unfold log, call. autorewrite with run.
  destruct (Qlt_bool _ _); [|discriminate].
  autorewrite with run.
  pose proof (train_stages_total env self k 0 true (next_tick w)) as Ht.
  destruct (outcome (train_stages env self k 0 true (next_tick w)));
    [|discriminate|congruence].
  destruct (k + 1 =? max_rounds self) eqn:Hm; [discriminate|].
  apply Z.eqb_neq in Hm. apply IH. lia.
Qed.

(** As coordinator, [train_stages] writes the pointer of a stage exactly
    when it builds the datasets of that stage. *)
Lemma stage_trace_writes_datasets (round start i : Z) (t : list event) :
  stage_trace round start true i t -> pointer_writes t = datasets_calls t.
Proof.
  induction 1 as [|i exp body rest Hb _ IH]; [reflexivity|].
  cbn [app pointer_writes pointer_write datasets_calls].
  rewrite pointer_writes_app, datasets_calls_app, IH,
    (pointer_writes_body _ _ _ Hb), (datasets_calls_body _ _ _ Hb).
  reflexivity.
Qed.

(** The pointers written by one round of the coordinator: those of the
    stages 0, 1, ... of the round, of all of them when the round ends
    without error. *)
Lemma train_stages_round_positions (round : Z) (w : world) :
  let x := train_stages env self round 0 true w in
  exists n : nat,
    pointer_writes (events x) = stage_positions round 0 n /\
    (n <= length (stages self))%nat /\
    (outcome x = Ok tt -> n = length (stages self)).
Proof.
  cbv zeta.
  destruct (train_stages_datasets env self round 0 true w)
    as (n & Hn1 & Hn2 & Hn3).
  cbv zeta in Hn1, Hn2, Hn3.
  change (py_slice_from (stages self) 0) with (stages self) in Hn2, Hn3.
  exists n. split; [|split; [exact Hn2|]].
  - rewrite <- Hn1.
    destruct (train_stages_trace env self round 0 true w)
      as (ts & tl & -> & Hts & Htl).
    rewrite pointer_writes_app, datasets_calls_app,
      (pointer_writes_quiet tl Htl), (datasets_calls_quiet tl Htl).
    f_equal. eapply stage_trace_writes_datasets, Hts.
  - exact Hn3.
Qed.

(** The pointers written by the loop from round [k] on: whole rounds, each
    from stage 0 to the last stage, then possibly the first stages of one
    more round, the one in which [train_stages] failed. *)
Lemma coordinator_loop_positions (fuel : nat) (start_time : Q) :
  forall (k : Z) (w : world),
    exists whole partial : nat,
      pointer_writes (events (coordinator_loop env self fuel start_time k w)) =
        round_positions (length (stages self)) k whole ++
        stage_positions (k + Z.of_nat whole) 0 partial /\
      (partial <= length (stages self))%nat /\
      Z.of_nat whole + Z.of_nat (Nat.min partial 1)
      <= Z.max 0 (max_rounds self - k).
Proof.
  induction fuel as [|fuel IH]; intros k w; cbn [coordinator_loop].
  - exists 0%nat, 0%nat. repeat split; simpl; lia.
  - destruct (k <? max_rounds self) eqn:Hk;
      [|exists 0%nat, 0%nat; repeat split; simpl; lia].
    apply Z.ltb_lt in Hk.
    unfold log, call. autorewrite with run.
    destruct (Qlt_bool _ _);
      [|exists 0%nat, 0%nat; repeat split; simpl; lia].
    autorewrite with run. cbn [app pointer_writes pointer_write].
    rewrite pointer_writes_app.
    destruct (train_stages_round_positions k (next_tick w))
      as (n & Hn1 & Hn2 & Hn3).
    cbv zeta in Hn1, Hn2, Hn3. rewrite Hn1.
    destruct (outcome (train_stages env self k 0 true (next_tick w)))
      as [[]|e|].
    + rewrite (Hn3 eq_refl) in *.
      destruct (k + 1 =? max_rounds self) eqn:Hm.
      * exists 1%nat, 0%nat. simpl. rewrite !app_nil_r.
        repeat split; lia.
      * apply Z.eqb_neq in Hm.
        destruct (IH (k + 1) (final (train_stages env self k 0 true
                                       (next_tick w))))
          as (whole & partial & Hw1 & Hw2 & Hw3).
        exists (S whole), partial. rewrite Hw1.
        cbn [round_positions]. rewrite <- app_assoc.
        replace (k + Z.of_nat (S whole)) with (k + 1 + Z.of_nat whole) by lia.
        repeat split; [exact Hw2 | lia].
    + exists 0%nat, n. simpl. rewrite Z.add_0_r, app_nil_r.
      repeat split; [exact Hn2 | lia].
    + exists 0%nat, n. simpl. rewrite Z.add_0_r, app_nil_r.
      repeat split; [exact Hn2 | lia].
Qed.

End CoordinatorFacts.

(** C10, as amended: a run of the coordinator loop ends, and the pointers
    it writes are strictly increasing in the lexicographic order of
    [(round, stage)]; in particular their rounds never decrease.  The stage
    increases within a round and starts again from 0 with each new round:
    the pointers written are those of the rounds 0, 1, ... in turn, each
    round from stage 0 up to its last stage, but for the round in which a
    stage fails, which ends the run after its first stages. *)
Theorem coordinator_train_pointer_order
    (env : Env) (self : HivemindGRPOTrainer) (w : world) :
  let x := coordinator_train env self w in
  let writes := pointer_writes (events x) in
  outcome x <> OutOfFuel /\
  StronglySorted Z.le (map fst writes) /\
  StronglySorted pointer_lt writes /\
  exists whole partial : nat,
    writes =
      round_positions (length (stages self)) 0 whole ++
      stage_positions (Z.of_nat whole) 0 partial /\
    (partial <= length (stages self))%nat /\
    Z.of_nat whole <= Z.max 0 (max_rounds self) /\
    (partial <> 0%nat -> Z.of_nat whole < max_rounds self).
Proof.
  cbv zeta. unfold coordinator_train. autorewrite with run. cbn [app].
  split; [apply coordinator_loop_total; lia|].
  destruct (coordinator_loop_writes env self
              (S (Z.to_nat (max_rounds self))) (monotonic env (tick w))
              0 (next_tick w)) as [_ H].
  split; [apply pointer_lt_rounds, H|]. split; [exact H|].
  destruct (coordinator_loop_positions env self
              (S (Z.to_nat (max_rounds self))) (monotonic env (tick w))
              0 (next_tick w)) as (whole & partial & H1 & H2 & H3).
  exists whole, partial. rewrite H1. repeat split; [exact H2 | lia | lia].
Qed.

(** C10, as stated, fails: with two stages and two rounds the coordinator
    writes the stages 0, 1, 0, 1. *)
Lemma coordinator_train_stage_restarts :
  let x := coordinator_train calm_env (swarm_trainer true [ok_stage; ok_stage] 2)
             fresh_world in
  outcome x = Ok tt /\
  pointer_writes (events x) = [(0, 0); (0, 1); (1, 0); (1, 1)] /\
  nondecreasingb (map snd (pointer_writes (events x))) = false.
Proof. cbv zeta. repeat split. Qed.

(** * [follower_train] *)

Section FollowerFacts.

Variable env : Env.
Variable self : HivemindGRPOTrainer.
Variables check_interval log_timeout max_check_interval : Q.

Local Abbreviation body :=
  (follower_body env self check_interval log_timeout max_check_interval).

(** The run of the idle branch. *)
Lemma follower_idle_run (st : follower_state) (r : Z) (w : world) :
  let x := follower_idle max_check_interval st r w in
  let backoff := check_backoff st in
  final x = w /\
  events x = ELog (LogAlreadyFinished r backoff) ::
             (if Qlt_bool backoff 0 then [] else [ESleep backoff]) /\
  outcome x =
    if Qlt_bool backoff 0 then Raise ValueError
    else Ok {| done_rounds := done_rounds st;
               fetch_log_time := fetch_log_time st;
               check_backoff := py_min (backoff * 2)%Q max_check_interval |}.
Proof.
  cbv zeta. unfold follower_idle, log, sleep. autorewrite with run.
  destruct (Qlt_bool (check_backoff st) 0); autorewrite with run;
    repeat split.
Qed.

(** A join that succeeds marks the round as done and resets the backoff. *)
Lemma follower_join_ok (st st' : follower_state) (r s : Z) (w : world) :
  outcome (follower_join env self check_interval st r s w) = Ok st' ->
  st' = {| done_rounds := {[ r ]} ∪ done_rounds st;
           fetch_log_time := fetch_log_time st;
           check_backoff := check_interval |}.
Proof.
  unfold follower_join. rewrite outcome_bind, outcome_bind.
  destruct (outcome (log _ _)); [|discriminate|discriminate].
  destruct (outcome (try_except _ _ _)); [|discriminate|discriminate].
  rewrite outcome_ret. congruence.
Qed.

(** The backoff after an iteration that continues, by what it observed. *)
Lemma follower_body_backoff (st st' : follower_state) (w : world) :
  outcome (body st w) = Ok (Continue st') ->
  match get_round_and_stage env (S (tick w)) with
  | inl _ => check_backoff st' = check_backoff st
  | inr (r, _) =>
      if bool_decide (r ∈ done_rounds st)
      then (0 <= check_backoff st)%Q /\
           check_backoff st' =
             py_min (check_backoff st * 2)%Q max_check_interval
      else check_backoff st' = check_interval
  end.
Proof.
  unfold follower_body, call. autorewrite with run. cbn [tick next_tick].
  destruct (get_round_and_stage env (S (tick w))) as [e|[r s]].
  - unfold when, log, sleep.
    destruct (Qlt_bool log_timeout _); destruct (Qlt_bool check_interval 0);
      autorewrite with run; intros H; inversion H; reflexivity.
  - rewrite outcome_bind.
    destruct (bool_decide (r ∈ done_rounds st)).
    + destruct (follower_idle_run st r (next_tick (next_tick w)))
        as (_ & _ & Ho).
      rewrite Ho. destruct (Qlt_bool (check_backoff st) 0) eqn:E;
        [discriminate|].
      apply Qlt_bool_false_iff in E.
      destruct (r =? max_rounds self - 1); autorewrite with run;
        intros H; inversion H. split; [exact E | reflexivity].
    + destruct (outcome (follower_join _ _ _ _ _ _ _)) as [st1| |] eqn:Hj;
        try discriminate.
      apply follower_join_ok in Hj.
      destruct (r =? max_rounds self - 1); autorewrite with run;
        intros H; inversion H. subst. reflexivity.
Qed.

(** The loop goes from one iteration to the next with the state in which
    [follower_body] continues: the states of [follower_reachable] are those
    of the loop. *)
Lemma follower_loop_continue (fuel : nat) (start_time : Q)
    (st st' : follower_state) (w : world) :
  Qlt_bool (monotonic env (tick w) - start_time) (train_timeout self) = true ->
  outcome (body st (next_tick w)) = Ok (Continue st') ->
  let next := follower_loop env self check_interval log_timeout
                max_check_interval fuel start_time st'
                (final (body st (next_tick w))) in
  outcome (follower_loop env self check_interval log_timeout
             max_check_interval (S fuel) start_time st w) = outcome next /\
  events (follower_loop env self check_interval log_timeout
            max_check_interval (S fuel) start_time st w) =
    events (body st (next_tick w)) ++ events next.
Proof.
  intros Hclock Hbody. cbv zeta. cbn [follower_loop].
  rewrite outcome_bind, events_bind, outcome_ask, final_ask, events_ask, Hclock.
  rewrite outcome_bind, events_bind, Hbody. split; reflexivity.
Qed.

Hypothesis interval_below_max : (check_interval <= max_check_interval)%Q.

Lemma py_min_le_r (a b : Q) : (py_min a b <= b)%Q.
Proof.
  unfold py_min. destruct (Qlt_bool b a) eqn:E.
  - apply Qle_refl.
  - apply Qlt_bool_false_iff in E. exact E.
Qed.

(** The backoff of a reachable state never exceeds the ceiling. *)
Lemma follower_reachable_bounded (st : follower_state) :
  follower_reachable env self check_interval log_timeout max_check_interval st ->
  (check_backoff st <= max_check_interval)%Q.
Proof using interval_below_max.
  induction 1 as [start | st st' w _ IH Hstep]; [exact interval_below_max|].
  apply follower_body_backoff in Hstep.
  destruct (get_round_and_stage env (S (tick w))) as [e|[r s]].
  - rewrite Hstep. exact IH.
  - destruct (bool_decide (r ∈ done_rounds st)).
    + destruct Hstep as [_ ->]. apply py_min_le_r.
    + rewrite Hstep. exact interval_below_max.
Qed.

End FollowerFacts.

(** C8, as amended: when [check_interval] is at most [max_check_interval]
    (as with the defaults 5 and 300), the backoff at the start of every
    iteration is at most [max_check_interval]; an idle poll, on a round that
    is already done, takes it to [min(2 * backoff, max_check_interval)],
    which is neither below its old value nor above the ceiling; a round
    replayed with success resets it to [check_interval]; a failed fetch
    leaves it as it is. *)
Theorem follower_backoff_monotone
    (env : Env) (self : HivemindGRPOTrainer)
    (check_interval log_timeout max_check_interval : Q)
    (st st' : follower_state) (w : world) :
  (check_interval <= max_check_interval)%Q ->
  follower_reachable env self check_interval log_timeout max_check_interval st ->
  outcome (follower_body env self check_interval log_timeout
             max_check_interval st w) = Ok (Continue st') ->
  (check_backoff st <= max_check_interval)%Q /\
  match get_round_and_stage env (S (tick w)) with
  | inl _ => check_backoff st' = check_backoff st
  | inr (r, _) =>
      if bool_decide (r ∈ done_rounds st)
      then check_backoff st' =
             py_min (check_backoff st * 2)%Q max_check_interval /\
           (check_backoff st <= check_backoff st')%Q /\
           (check_backoff st' <= max_check_interval)%Q
      else check_backoff st' = check_interval
  end.
Proof.
  intros Hle Hreach Hstep.
  pose proof (follower_reachable_bounded env self check_interval log_timeout
                max_check_interval Hle st Hreach) as Hb.
  split; [exact Hb|].
  apply follower_body_backoff in Hstep.
  destruct (get_round_and_stage env (S (tick w))) as [e|[r s]]; [exact Hstep|].
  destruct (bool_decide (r ∈ done_rounds st)); [|exact Hstep].
  destruct Hstep as [H0 ->]. split; [reflexivity|].
  split; [|apply py_min_le_r].
  unfold py_min. destruct (Qlt_bool _ _); [exact Hb | lra].
Qed.

(** C8, as stated, fails when [check_interval] exceeds
    [max_check_interval]: after a first round replayed with success the
    backoff is 400, above the ceiling of 300, and the idle poll that follows
    lowers it to 300. *)
Lemma follower_backoff_can_decrease :
  let self := swarm_trainer false [ok_stage] 5 in
  let first :=
    follower_body calm_env self 400 10 300 (follower_init 400 0) fresh_world in
  exists st1,
    outcome first = Ok (Continue st1) /\
    check_backoff st1 = 400%Q /\
    Qlt_bool 300 (check_backoff st1) = true /\
    events (follower_body calm_env self 400 10 300 st1 (final first)) =
      [ECall get_visible_maddrs; EGetRoundAndStage;
       ELog (LogAlreadyFinished 0 400); ESleep 400] /\
    next_backoff (follower_body calm_env self 400 10 300 st1 (final first))
    = Some 300%Q.
Proof.
  cbv zeta.
  exists {| done_rounds := {[ 0 ]} ∪ ∅; fetch_log_time := 0; check_backoff := 400 |}.
  repeat split.
Qed.

(** C9: an iteration that observes a round already in [done_rounds] asks
    for the visible addresses, reads the pointer, logs and sleeps for the
    backoff; it executes no stage and stores nothing, leaves the world as it
    is but for the count of interactions, and changes nothing in the state
    of the loop but [check_backoff]. *)
Theorem follower_idle_poll_frame
    (env : Env) (self : HivemindGRPOTrainer)
    (check_interval log_timeout max_check_interval : Q)
    (st : follower_state) (w : world) (r s : Z) :
  get_round_and_stage env (S (tick w)) = inr (r, s) ->
  r ∈ done_rounds st ->
  let x := follower_body env self check_interval log_timeout
             max_check_interval st w in
  let backoff := check_backoff st in
  events x =
    [ECall get_visible_maddrs; EGetRoundAndStage;
     ELog (LogAlreadyFinished r backoff)] ++
    (if Qlt_bool backoff 0 then [] else [ESleep backoff]) /\
  count_events is_stage_execution (events x) = 0%nat /\
  count_events is_cleanup (events x) = 0%nat /\
  count_events is_store (events x) = 0%nat /\
  final x = next_tick (next_tick w) /\
  forall st', outcome x = Ok (Continue st') ->
    done_rounds st' = done_rounds st /\
    fetch_log_time st' = fetch_log_time st /\
    check_backoff st' = py_min (backoff * 2)%Q max_check_interval.
Proof.
  intros Hget Hdone. cbv zeta.
  unfold follower_body, call. autorewrite with run. cbn [tick next_tick].
  rewrite Hget. rewrite (bool_decide_eq_true_2 _ Hdone).
  autorewrite with run.
  destruct (follower_idle_run max_check_interval st r
              (next_tick (next_tick w))) as (Hf & He & Ho).
  cbv zeta in Hf, He, Ho. rewrite Hf, He, Ho.
  destruct (Qlt_bool (check_backoff st) 0); cbn [app];
    (destruct (r =? max_rounds self - 1); autorewrite with run; cbn [app];
     repeat split; try discriminate; intros;
     match goal with
     | H : _ = Ok (Continue _) |- _ => inversion H; subst; reflexivity
     end).
Qed.


(** * Instances *)

Example sample_leaderboard :
  py_sorted_reverse sample_rewards =
  [("bert"%string, Finite 2); ("cleo"%string, Finite 1);
   ("anna"%string, Finite 1)].
Proof. reflexivity. Qed.

(** C1 on two stages: the second train step runs under the pointer
    [(0, 1)]. *)
Lemma train_stages_pointer_first_witness :
  let evs := events (train_stages calm_env
                       (swarm_trainer true [ok_stage; ok_stage] 1)
                       0 0 true fresh_world) in
  0 = 0 /\ last_pointer (firstn 19 evs) = Some (0, 1).
Proof.
  cbv zeta.
  apply (train_stages_pointer_first calm_env
           (swarm_trainer true [ok_stage; ok_stage] 1) 0 0 fresh_world
           _ (skipn 20 (events (train_stages calm_env
                                  (swarm_trainer true [ok_stage; ok_stage] 1)
                                  0 0 true fresh_world)))
           (ETrain 0 1) 0 1).
  - vm_compute. reflexivity.
  - right. reflexivity.
Defined.


(** C4 on a snapshot of three workers, two of them with the same reward. *)
Lemma publish_leaderboard_sorted_witness :
  let env := with_get_dht_value (fun _ _ => Some sample_rewards) calm_env in
  let self := swarm_trainer true [ok_stage] 1 in
  exists leaderboard,
    events (publish_leaderboard env self fresh_world) =
      [EGetValue (rewards_key 0 0);
       EStore (leaderboard_key 0 0) None (VLeaderboard leaderboard)
         (get_dht_time env 1 + out_expiration self)%Q] /\
    Permutation leaderboard sample_rewards /\
    StronglySorted ranks_before leaderboard /\
    forall snapshot' : list (string * pyfloat),
      Permutation snapshot' sample_rewards ->
      py_sorted_reverse snapshot' = leaderboard.
Proof.
  cbv zeta.
  apply (publish_leaderboard_sorted
           (with_get_dht_value (fun _ _ => Some sample_rewards) calm_env)
           (swarm_trainer true [ok_stage] 1) fresh_world sample_rewards).
  - reflexivity.
  - discriminate.
  - apply (bool_decide_unpack _). vm_compute. exact I.
  - repeat constructor.
Defined.

(** C7 on a store that holds no rewards. *)
Lemma publish_leaderboard_skips_absent_witness :
  let x := publish_leaderboard calm_env (swarm_trainer true [ok_stage] 1)
             fresh_world in
  outcome x = Ok tt /\
  events x = [EGetValue (rewards_key 0 0); ELog (LogCantRetrieve 0 (0 - 1))] /\
  count_events is_store (events x) = 0%nat /\
  count_events is_leaderboard_store (events x) = 0%nat.
Proof.
  cbv zeta.
  apply (publish_leaderboard_skips_absent calm_env
           (swarm_trainer true [ok_stage] 1) fresh_world).
  left. reflexivity.
Defined.

(** C8 with the default intervals: the idle poll after round 0 doubles the
    backoff from 5 to 10. *)
Lemma follower_backoff_monotone_witness :
  (check_backoff joined_state <= 300)%Q /\
  check_backoff doubled_state = py_min (check_backoff joined_state * 2) 300 /\
  (check_backoff joined_state <= check_backoff doubled_state)%Q /\
  (check_backoff doubled_state <= 300)%Q.
Proof.
  apply (follower_backoff_monotone calm_env (swarm_trainer false [ok_stage] 5)
           5 10 300 joined_state doubled_state fresh_world).
  - vm_compute. discriminate.
  - apply (reachable_step _ _ _ _ _ (follower_init 5 0) joined_state
             fresh_world).
    + apply reachable_init.
    + reflexivity.
  - reflexivity.
Defined.

(** C9 on the state after round 0, polled again at round 0. *)
Lemma follower_idle_poll_frame_witness :
  let self := swarm_trainer false [ok_stage] 5 in
  let x := follower_body calm_env self 5 10 300 joined_state fresh_world in
  events x =
    [ECall get_visible_maddrs; EGetRoundAndStage;
     ELog (LogAlreadyFinished 0 5)] ++
    (if Qlt_bool 5 0 then [] else [ESleep 5]) /\
  count_events is_stage_execution (events x) = 0%nat /\
  count_events is_cleanup (events x) = 0%nat /\
  count_events is_store (events x) = 0%nat /\
  final x = next_tick (next_tick fresh_world) /\
  forall st', outcome x = Ok (Continue st') ->
    done_rounds st' = done_rounds joined_state /\
    fetch_log_time st' = fetch_log_time joined_state /\
    check_backoff st' = py_min (5 * 2)%Q 300.
Proof.
  cbv zeta.
  apply (follower_idle_poll_frame calm_env (swarm_trainer false [ok_stage] 5)
           5 10 300 joined_state fresh_world 0 0).
  - reflexivity.
  - apply elem_of_union_l, elem_of_singleton. reflexivity.
Defined.

(** * Further properties of the stage runner *)

Lemma stage_runner_only_nil (coord : bool) (w : world) :
  stage_runner_only coord w w [].
Proof. constructor. Qed.

Lemma stage_runner_only_app (coord : bool) (w w1 w2 : world)
    (t1 t2 : list event) :
  stage_runner_only coord w w1 t1 -> stage_runner_only coord w1 w2 t2 ->
  stage_runner_only coord w w2 (t1 ++ t2).
Proof. intros H1 H2. apply Forall_app. split; assumption. Qed.

Lemma pointer_free_nil (w : world) : pointer_free w w [].
Proof. reflexivity. Qed.

Lemma pointer_free_app (w w1 w2 : world) (t1 t2 : list event) :
  pointer_free w w1 t1 -> pointer_free w1 w2 t2 -> pointer_free w w2 (t1 ++ t2).
Proof.
  unfold pointer_free. intros H1 H2. rewrite pointer_writes_app, H1, H2.
  reflexivity.
Qed.

Create HintDb runner.
Create HintDb pointer_free.

Ltac runner_tac c :=
  repeat first
    [ solve [auto with runner]
    | respects_step (stage_runner_only_nil c) (stage_runner_only_app c) ];
  try (repeat constructor).

Ltac pointer_free_tac :=
  repeat first
    [ solve [auto with pointer_free]
    | respects_step pointer_free_nil pointer_free_app ];
  try reflexivity.

Lemma stage_runner_event_false_pointer (e : event) :
  stage_runner_event false e = true -> pointer_write e = None.
Proof.
  destruct e as [k sub v exp| | | | | | | |]; [destruct k, sub, v|..];
    simpl; congruence.
Qed.

Lemma stage_runner_only_pointer_free (t : list event) :
  Forall (fun e => stage_runner_event false e = true) t ->
  pointer_writes t = [].
Proof.
  induction 1 as [|e t He _ IH]; simpl; [reflexivity|].
  rewrite (stage_runner_event_false_pointer e He). exact IH.
Qed.

Lemma stage_runner_only_rounds (coord : bool) (t : list event) :
  Forall (fun e => stage_runner_event coord e = true) t ->
  started_rounds t = [] /\ count_events is_timed_out t = 0%nat.
Proof.
  induction 1 as [|e t He _ [IH1 IH2]]; simpl; [split; reflexivity|].
  destruct e as [| | | | | | |[]|]; simpl in *; try discriminate; auto.
Qed.

Section RunnerFacts.

Variable env : Env.
Variable self : HivemindGRPOTrainer.

Lemma cleanup_runner (coord : bool) :
  respects (stage_runner_only coord) (cleanup self).
Proof. unfold cleanup. runner_tac coord. Qed.

Lemma train_step_runner (coord : bool) :
  respects (stage_runner_only coord) (train_step env).
Proof. unfold train_step. runner_tac coord. Qed.

Hint Resolve cleanup_runner train_step_runner : runner.

Lemma train_attempts_runner (coord : bool) (n : nat) :
  respects (stage_runner_only coord) (train_attempts env self n).
Proof. induction n as [|n IH]; simpl; runner_tac coord. Qed.

Hint Resolve train_attempts_runner : runner.

Lemma train_stage_and_save_runner (coord : bool) :
  respects (stage_runner_only coord) (train_stage_and_save env self).
Proof. unfold train_stage_and_save. runner_tac coord. Qed.

Hint Resolve train_stage_and_save_runner : runner.

Lemma stage_loop_runner (coord : bool) (round start : Z) (l : list Stage) :
  forall i b,
    respects (stage_runner_only coord)
      (stage_loop env self round start coord l i b).
Proof.
  destruct coord; induction l as [|stage rest IH]; intros i b; simpl.
  - runner_tac true.
  - runner_tac true.
  - runner_tac false.
  - runner_tac false.
Qed.

Hint Resolve stage_loop_runner : runner.

Lemma train_stages_runner (coord : bool) (round start : Z) :
  respects (stage_runner_only coord)
    (train_stages env self round start coord).
Proof. unfold train_stages. runner_tac coord. Qed.

End RunnerFacts.

#[global] Hint Resolve cleanup_runner train_step_runner train_attempts_runner
  train_stage_and_save_runner stage_loop_runner train_stages_runner : runner.

(** X1: apart from what happens inside the calls of [trainer.train()],
    each of which is the one event [ETrain] here, a call of [train_stages]
    only runs, saves and cleans up stages, however it ends: the code of the
    stage runner never reads the store, and the only write to the store that
    it makes itself is that of the progress pointer, which it makes only
    when called as coordinator.  (The loss hook, which the library calls
    during [trainer.train()], does store: see [compute_loss].) *)
Theorem train_stages_events_alphabet
    (env : Env) (self : HivemindGRPOTrainer) (round start : Z) (coord : bool)
    (w : world) :
  Forall (fun e => stage_runner_event coord e = true)
         (events (train_stages env self round start coord w)) /\
  (coord = false ->
   count_events is_store (events (train_stages env self round start coord w))
   = 0%nat).
Proof.
  destruct (train_stages_runner env self coord round start w) as [_ H].
  unfold stage_runner_only in H. split; [exact H|].
  intros ->. induction H as [|e t He _ IH]; simpl; [reflexivity|].
  destruct e as [k sub v exp| | | | | | | |]; simpl;
    [destruct k, sub, v; simpl in He; discriminate|..]; exact IH.
Qed.

Section PointerOwnership.

Variable env : Env.
Variable self : HivemindGRPOTrainer.
Variables check_interval log_timeout max_check_interval : Q.

Lemma train_stages_pointer_free (round start : Z) :
  respects pointer_free (train_stages env self round start false).
Proof.
  intros w. destruct (train_stages_runner env self false round start w)
    as [Hf H].
  split; [exact Hf|]. apply stage_runner_only_pointer_free, H.
Qed.

Hint Resolve train_stages_pointer_free : pointer_free.

Lemma publish_leaderboard_pointer_free :
  respects pointer_free (publish_leaderboard env self).
Proof. unfold publish_leaderboard. pointer_free_tac. Qed.

Hint Resolve publish_leaderboard_pointer_free : pointer_free.

Lemma compute_loss_pointer_free : respects pointer_free (compute_loss env self).
Proof. unfold compute_loss. pointer_free_tac. Qed.

Lemma follower_body_pointer_free (st : follower_state) :
  respects pointer_free
    (follower_body env self check_interval log_timeout max_check_interval st).
Proof.
  unfold follower_body, follower_idle, follower_join. pointer_free_tac.
Qed.

Lemma follower_loop_pointer_free (fuel : nat) (start_time : Q) :
  forall st w,
    pointer_writes
      (events (follower_loop env self check_interval log_timeout
                 max_check_interval fuel start_time st w)) = [].
Proof.
  induction fuel as [|fuel IH]; intros st w; [reflexivity|].
  cbn [follower_loop]. rewrite events_bind, outcome_ask, final_ask, events_ask.
  destruct (Qlt_bool _ _); [|reflexivity].
  rewrite events_bind.
  destruct (follower_body_pointer_free st (next_tick w)) as [_ Hb].
  unfold pointer_free in Hb. cbn [app]. rewrite pointer_writes_app, Hb.
  destruct (outcome (follower_body _ _ _ _ _ _ _)) as [[st'|]| |];
    try reflexivity.
  apply IH.
Qed.

End PointerOwnership.

(** X2: only the coordinator's stage runner writes the progress pointer.
    A whole run of the follower loop writes none, whatever it observes, and
    neither does the loss hook. *)
Theorem pointer_written_by_coordinator_only
    (env : Env) (self : HivemindGRPOTrainer)
    (check_interval log_timeout max_check_interval : Q) (fuel : nat)
    (w : world) :
  pointer_writes
    (events (follower_train env self check_interval log_timeout
               max_check_interval fuel w)) = [] /\
  pointer_writes (events (compute_loss env self w)) = [].
Proof.
  split.
  - unfold follower_train.
    rewrite events_bind, outcome_ask, final_ask, events_ask. cbn [app].
    apply follower_loop_pointer_free.
  - apply compute_loss_pointer_free.
Qed.

(** * Further properties of [coordinator_train] *)

Lemma started_rounds_app (t1 t2 : list event) :
  started_rounds (t1 ++ t2) = started_rounds t1 ++ started_rounds t2.
Proof.
  induction t1 as [|e t1 IH]; simpl; [reflexivity|].
  destruct e as [| | | | | | |[]|]; simpl; rewrite IH; reflexivity.
Qed.

Lemma consecutive_cons (r : Z) (k : nat) :
  r :: map (fun j => r + 1 + Z.of_nat j) (seq 0 k) =
  map (fun j => r + Z.of_nat j) (seq 0 (S k)).
Proof.
  cbn [seq map]. rewrite Z.add_0_r. f_equal.
  rewrite <- seq_shift, map_map. apply map_ext. intros j. lia.
Qed.

Section CoordinatorRounds.

Variable env : Env.
Variable self : HivemindGRPOTrainer.

Lemma coordinator_loop_rounds (fuel : nat) (start_time : Q) :
  forall (r : Z) (w : world),
    let x := coordinator_loop env self fuel start_time r w in
    exists k : nat,
      started_rounds (events x) = map (fun j => r + Z.of_nat j) (seq 0 k) /\
      (k <> 0%nat -> r + Z.of_nat k <= max_rounds self) /\
      (outcome x = Ok tt -> count_events is_timed_out (events x) = 0%nat ->
       r < max_rounds self /\ r + Z.of_nat k = max_rounds self).
Proof.
  induction fuel as [|fuel IH]; intros r w; cbv zeta; cbn [coordinator_loop].
  - exists 0%nat. repeat split; try discriminate. contradiction.
  - destruct (r <? max_rounds self) eqn:Hr.
    2:{ exists 0%nat. repeat split; try discriminate; contradiction. }
    apply Z.ltb_lt in Hr.
    unfold log, call. autorewrite with run.
    destruct (Qlt_bool _ _).
    2:{ exists 0%nat. repeat split; try discriminate; contradiction. }
    autorewrite with run. cbn [app started_rounds count_events is_timed_out].
    rewrite started_rounds_app, count_events_app.
    destruct (train_stages_runner env self true r 0 (next_tick w)) as [_ Hts].
    apply stage_runner_only_rounds in Hts. destruct Hts as [Hs Ht].
    rewrite Hs, Ht. cbn [app Nat.add].
    destruct (outcome (train_stages env self r 0 true (next_tick w)))
      as [[]|e|].
    + destruct (r + 1 =? max_rounds self) eqn:Hm.
      * apply Z.eqb_eq in Hm. exists 1%nat. autorewrite with run.
        cbn [seq map started_rounds]. rewrite Z.add_0_r.
        repeat split; lia.
      * apply Z.eqb_neq in Hm.
        destruct (IH (r + 1)
                    (final (train_stages env self r 0 true (next_tick w))))
          as (k & Hk1 & Hk2 & Hk3).
        cbv zeta in Hk1, Hk2, Hk3.
        exists (S k). rewrite Hk1. split; [apply consecutive_cons|].
        split.
        -- intros _. destruct k as [|k]; [lia|].
           assert (S k <> 0%nat) as Hne by discriminate.
           apply Hk2 in Hne. lia.
        -- intros Ho Hc. destruct (Hk3 Ho Hc) as [? ?]. lia.
    + exists 1%nat. cbn [seq map started_rounds]. rewrite Z.add_0_r.
      repeat split; try discriminate; lia.
    + exists 1%nat. cbn [seq map started_rounds]. rewrite Z.add_0_r.
      repeat split; try discriminate; lia.
Qed.

End CoordinatorRounds.

(** X3: the coordinator announces the rounds 0, 1, 2, ... in order and
    never more than [max_rounds] of them; when it returns without error and
    without the log line of the timeout, it has run all [max_rounds]
    rounds. *)
Theorem coordinator_train_rounds
    (env : Env) (self : HivemindGRPOTrainer) (w : world) :
  let x := coordinator_train env self w in
  exists k : nat,
    started_rounds (events x) = map Z.of_nat (seq 0 k) /\
    Z.of_nat k <= Z.max 0 (max_rounds self) /\
    (outcome x = Ok tt -> count_events is_timed_out (events x) = 0%nat ->
     Z.of_nat k = max_rounds self).
Proof.
  cbv zeta. unfold coordinator_train. autorewrite with run. cbn [app].
  destruct (coordinator_loop_rounds env self (S (Z.to_nat (max_rounds self)))
              (monotonic env (tick w)) 0 (next_tick w))
    as (k & Hk1 & Hk2 & Hk3).
  cbv zeta in Hk1, Hk2, Hk3. exists k. rewrite Hk1.
  split; [apply map_ext; intros j; lia|].
  split.
  - destruct k as [|k]; [lia|].
    assert (S k <> 0%nat) as Hne by discriminate. apply Hk2 in Hne. lia.
  - intros Ho Hc. destruct (Hk3 Ho Hc) as [_ H]. lia.
Qed.

(** * Further properties of [cleanup] and [train] *)

(** X4: [cleanup()] clears the stage cache once, finishes the tracking
    session exactly when there is one, destroys the distributed process
    group exactly when it is initialized, and leaves it destroyed: run
    again at once, it does not destroy it a second time. *)
Theorem cleanup_releases (self : HivemindGRPOTrainer) (w : world) :
  let x := cleanup self w in
  cleanup_count (events x) = 1%nat /\
  count_events is_wandb_finish (events x)
  = (if wandb_run self then 1%nat else 0%nat) /\
  count_events is_destroy (events x)
  = (if dist_initialized w then 1%nat else 0%nat) /\
  dist_initialized (final x) = false /\
  count_events is_destroy (events (cleanup self (final x))) = 0%nat.
Proof.
  cbv zeta.
  unfold cleanup, when, call, bind, emit, get_world, modify, ret,
    outcome, final, events.
  destruct (cuda_available self), (mps_available self),
    (xpu_available self) as [[|]|], (wandb_run self);
    simpl; destruct (dist_initialized w) eqn:E; simpl; rewrite ?E;
    repeat split.
Qed.

(** X5: [train] ends as [_train] ends: an error of [_train] is raised again
    unchanged, after the system information and the exception have been
    logged.  Whether [_train] returns or raises, the distributed process
    group is destroyed afterwards if it is still initialized, so that it is
    never left initialized. *)
Theorem train_reraises_and_releases
    (env : Env) (self : HivemindGRPOTrainer) (fuel : nat) (w : world) :
  let y := _train env self fuel w in
  let x := train env self fuel w in
  outcome x = outcome y /\
  events x =
    events y ++
    match outcome y with
    | Ok _ => []
    | Raise _ => [ECall print_system_info; ELog LogException]
    | OutOfFuel => []
    end ++
    match outcome y with
    | OutOfFuel => []
    | _ => if dist_initialized (final y)
           then [ECall destroy_process_group] else []
    end /\
  match outcome y with
  | OutOfFuel => final x = final y
  | _ => dist_initialized (final x) = false
  end.
Proof.
  cbv zeta. unfold train, try_finally, try_except, outcome, final, events.
  destruct (_train env self fuel w) as [[[[]|e|] w1] t1];
    cbn [fst snd];
    unfold bind, call, log, emit, raise, get_world, when, modify, ret;
    cbn [fst snd app];
    destruct (dist_initialized w1) eqn:E; cbn [fst snd app];
    rewrite ?app_nil_r, <- ?app_assoc; cbn [app];
    repeat split; try exact E.
Qed.

(** * [wait_for] *)

Section WaitForFacts.

Variable env : Env.
Variable V : Type.
Variable result_fn : nat -> exn + option V.
Variables interval timeout : Q.

Lemma wait_for_loop_result (fuel : nat) (start_time : Q) :
  forall (result : option (option V)) (u : world) (r : option V),
    result = None \/ result = Some None ->
    outcome (wait_for_loop env V result_fn interval timeout fuel start_time
               result u) = Ok r ->
    exists k : nat,
      events (wait_for_loop env V result_fn interval timeout fuel start_time
                result u) = repeat (ESleep interval) k /\
      (forall j : nat, (j < k)%nat ->
         result_fn (tick u + 1 + 2 * j)%nat = inr None) /\
      match r with
      | Some v => result_fn (tick u + 1 + 2 * k)%nat = inr (Some v)
      | None =>
          (k <> 0%nat \/ result = Some None) /\
          Qlt_bool (monotonic env (tick u + 2 * k)%nat - start_time) timeout
          = false
      end.
Proof.
  induction fuel as [|fuel IH]; intros result u r Hres; cbn [wait_for_loop];
    [discriminate|].
  rewrite outcome_bind, events_bind, outcome_ask, final_ask, events_ask.
  cbn [app].
  destruct (Qlt_bool (monotonic env (tick u) - start_time) timeout) eqn:Hc.
  - rewrite outcome_bind, events_bind, outcome_ask, final_ask, events_ask.
    cbn [app]. change (tick (next_tick u)) with (S (tick u)).
    destruct (result_fn (S (tick u))) as [e|[v|]] eqn:Hf.
    + discriminate.
    + rewrite outcome_ret, events_ret. intros H. inversion H; subst r.
      exists 0%nat. split; [reflexivity|]. split; [lia|].
      rewrite <- Hf. f_equal. lia.
    + unfold sleep. destruct (Qlt_bool interval 0); [discriminate|].
      rewrite outcome_bind, events_bind, outcome_emit, final_emit, events_emit.
      intros H.
      destruct (IH (Some None) (next_tick (next_tick u)) r
                  (or_intror eq_refl) H) as (k & He & Hn & Hr).
      change (tick (next_tick (next_tick u))) with (S (S (tick u))) in *.
      exists (S k). split; [rewrite He; reflexivity|]. split.
      * intros [|j] Hj.
        -- rewrite <- Hf. f_equal. lia.
        -- rewrite <- (Hn j) by lia. f_equal. lia.
      * destruct r as [v|].
        -- rewrite <- Hr. f_equal. lia.
        -- destruct Hr as [_ Hr]. split; [left; discriminate|].
           rewrite <- Hr. do 3 f_equal. lia.
  - destruct Hres as [-> | ->]; [discriminate|].
    rewrite outcome_ret, events_ret. intros H. inversion H; subst r.
    exists 0%nat. split; [reflexivity|]. split; [lia|].
    split; [right; reflexivity|].
    rewrite <- Hc. do 3 f_equal. lia.
Qed.

End WaitForFacts.

(** X6: [wait_for] called when its deadline has already passed at the first
    test of the loop (a timeout of zero, say) does not return [None]: it
    never calls [result_fn], never sleeps, and raises [UnboundLocalError]
    for the name [result]. *)
Theorem wait_for_expired
    (env : Env) (V : Type) (result_fn : nat -> exn + option V)
    (interval timeout : Q) (fuel : nat) (w : world) :
  (timeout <= monotonic env (S (tick w)) - monotonic env (tick w))%Q ->
  let x := wait_for env V result_fn interval timeout (S fuel) w in
  outcome x = Raise UnboundLocalError /\
  events x = [] /\
  final x = next_tick (next_tick w).
Proof.
  intros H. cbv zeta. apply Qlt_bool_false_iff in H.
  unfold wait_for. cbn [wait_for_loop]. autorewrite with run.
  change (tick (next_tick w)) with (S (tick w)). rewrite H.
  repeat split.
Qed.

(** X7: when [wait_for] returns, it has called [result_fn] at every second
    interaction, has slept [interval] after each answer [None], and
    returns the first answer that is not [None]; it returns [None] only
    after at least one call, once the deadline has passed. *)
Theorem wait_for_first_result
    (env : Env) (V : Type) (result_fn : nat -> exn + option V)
    (interval timeout : Q) (fuel : nat) (w : world) (r : option V) :
  let x := wait_for env V result_fn interval timeout fuel w in
  outcome x = Ok r ->
  exists k : nat,
    events x = repeat (ESleep interval) k /\
    (forall j : nat, (j < k)%nat ->
       result_fn (tick w + 2 + 2 * j)%nat = inr None) /\
    match r with
    | Some v => result_fn (tick w + 2 + 2 * k)%nat = inr (Some v)
    | None =>
        k <> 0%nat /\
        (timeout <= monotonic env (tick w + 1 + 2 * k)%nat
                    - monotonic env (tick w))%Q
    end.
Proof.
  cbv zeta. unfold wait_for.
  rewrite outcome_bind, events_bind, outcome_ask, final_ask, events_ask.
  cbn [app]. intros H.
  destruct (wait_for_loop_result env V result_fn interval timeout fuel
              (monotonic env (tick w)) None (next_tick w) r
              (or_introl eq_refl) H) as (k & He & Hn & Hr).
  change (tick (next_tick w)) with (S (tick w)) in *.
  exists k. split; [exact He|]. split.
  - intros j Hj. rewrite <- (Hn j Hj). f_equal. lia.
  - destruct r as [v|].
    + rewrite <- Hr. f_equal. lia.
    + destruct Hr as [[Hk|Hk] Hr]; [|discriminate].
      split; [exact Hk|]. apply Qlt_bool_false_iff.
      rewrite <- Hr. do 3 f_equal. lia.
Qed.

(** * Further properties of [train_stage_and_save] *)

Section RetryPrefix.

Variable env : Env.
Variable self : HivemindGRPOTrainer.

Lemma cleanup_tick (w : world) : tick (final (cleanup self w)) = tick w.
Proof.
  unfold cleanup, when, call, bind, emit, get_world, modify, ret, final.
  destruct (cuda_available self), (mps_available self),
    (xpu_available self) as [[|]|], (wandb_run self);
    simpl; destruct (dist_initialized w); reflexivity.
Qed.

(** [k] transient failures, then an attempt that succeeds or fails with
    another error: [k + 1] attempts and [k] retries. *)
Lemma train_attempts_prefix (k : nat) :
  forall (n : nat) (w : world),
    (k < n)%nat ->
    (forall i : nat, (i < k)%nat ->
       fails_transiently env (tick w + i)%nat = true) ->
    fails_transiently env (tick w + k)%nat = false ->
    let x := train_attempts env self n w in
    outcome x = match trainer_train env (tick w + k)%nat with
                | Some e => Raise e
                | None => Ok true
                end /\
    train_count (events x) = S k /\
    cleanup_count (events x) = k /\
    count_events (is_sleep 5) (events x) = k.
Proof.
  induction k as [|k IH]; intros n w Hn Hpre Hlast; cbv zeta;
    (destruct n as [|n]; [lia|]); cbn [train_attempts];
    rewrite outcome_try_except, events_try_except;
    unfold train_step; autorewrite with run.
  - unfold fails_transiently in Hlast.
    replace (tick w + 0)%nat with (tick w) in * by lia.
    destruct (trainer_train env (tick w)) as [e|]; autorewrite with run.
    + rewrite Hlast. repeat split.
    + repeat split.
  - pose proof (Hpre 0%nat ltac:(lia)) as H0.
    unfold fails_transiently in H0.
    replace (tick w + 0)%nat with (tick w) in H0 by lia.
    destruct (trainer_train env (tick w)) as [e|]; [|discriminate].
    autorewrite with run. rewrite H0. unfold log, sleep.
    change (Qlt_bool 5 0) with false. cbv iota. autorewrite with run.
    destruct (cleanup_run self (next_tick w)) as (Ho & Hc & _ & Ht & Hs & _).
    rewrite Ho. autorewrite with run.
    pose proof (cleanup_tick (next_tick w)) as Htick.
    change (tick (next_tick w)) with (S (tick w)) in Htick.
    destruct (IH n (final (cleanup self (next_tick w)))) as (Io & It & Ic & Is).
    + lia.
    + intros i Hi. rewrite Htick.
      replace (S (tick w) + i)%nat with (tick w + S i)%nat by lia.
      apply Hpre. lia.
    + rewrite Htick.
      replace (S (tick w) + k)%nat with (tick w + S k)%nat by lia.
      exact Hlast.
    + cbv zeta in Io, It, Ic, Is. rewrite Htick in Io.
      replace (S (tick w) + k)%nat with (tick w + S k)%nat in Io by lia.
      rewrite Io. split; [reflexivity|].
      unfold train_count, cleanup_count in *.
      cbn [app count_events is_train_attempt is_cleanup is_sleep].
      rewrite !count_events_app.
      cbn [app count_events is_train_attempt is_cleanup is_sleep].
      rewrite Hc, Ht, Hs, It, Ic, Is.
      destruct e; try discriminate H0; repeat split.
Qed.

End RetryPrefix.

Lemma no_save_nil (w : world) : no_save w w [].
Proof. split; reflexivity. Qed.

Lemma no_save_app (w w1 w2 : world) (t1 t2 : list event) :
  no_save w w1 t1 -> no_save w1 w2 t2 -> no_save w w2 (t1 ++ t2).
Proof.
  unfold no_save. intros [H1 H2] [H3 H4]. rewrite !count_events_app. lia.
Qed.

Lemma train_attempts_no_save
    (env : Env) (self : HivemindGRPOTrainer) (n : nat) :
  respects no_save (train_attempts env self n).
Proof.
  induction n as [|n IH]; simpl; unfold train_step, cleanup;
    repeat first
      [ assumption
      | respects_step no_save_nil no_save_app ];
    try (split; reflexivity).
Qed.

(** X8: when the train step fails [k] times with transient errors,
    [k < MAX_TRAIN_FAILS], and then succeeds or fails with another error,
    [train_stage_and_save] makes [k + 1] attempts, with [cleanup()] and a
    sleep of five seconds after each of the [k] failures.  The other error
    is raised as it is.  After a success the model is saved; the tokenizer
    is saved too unless [config.distributed_state] is not set, in which
    case the call ends with an [AssertionError] after the model is saved. *)
Theorem train_stage_and_save_after_retries
    (env : Env) (self : HivemindGRPOTrainer) (w : world) (k : nat) :
  (k < MAX_TRAIN_FAILS)%nat ->
  (forall i : nat, (i < k)%nat ->
     fails_transiently env (tick w + i)%nat = true) ->
  fails_transiently env (tick w + k)%nat = false ->
  let x := train_stage_and_save env self w in
  train_count (events x) = S k /\
  cleanup_count (events x) = k /\
  count_events (is_sleep 5) (events x) = k /\
  match trainer_train env (tick w + k)%nat with
  | Some e =>
      outcome x = Raise e /\
      count_events is_save_model (events x) = 0%nat
  | None =>
      outcome x = (if distributed_state self then Ok tt
                   else Raise AssertionError) /\
      count_events is_save_model (events x) = 1%nat /\
      count_events is_save_pretrained (events x)
      = (if distributed_state self then 1%nat else 0%nat)
  end.
Proof.
  intros Hk Hpre Hlast. cbv zeta.
  destruct (train_attempts_prefix env self k MAX_TRAIN_FAILS w Hk Hpre Hlast)
    as (Ho & Ht & Hc & Hs).
  cbv zeta in Ho, Ht, Hc, Hs.
  destruct (train_attempts_no_save env self MAX_TRAIN_FAILS w) as [_ Hsave].
  destruct Hsave as [Hm Hp].
  unfold train_stage_and_save, call, log.
  rewrite !outcome_bind, !events_bind.
  unfold train_count, cleanup_count in *.
  destruct (trainer_train env (tick w + k)%nat) as [e|]; rewrite Ho.
  - rewrite !app_nil_r. auto.
  - autorewrite with run.
    destruct (distributed_state self); autorewrite with run;
      rewrite !count_events_app, Ht, Hc, Hs, Hm, ?Hp; repeat split;
      simpl; lia.
Qed.

(** * Further properties of [train_stages] *)

Lemma py_slice_from_past {A : Type} (l : list A) (start : Z) :
  Z.of_nat (length l) <= start -> py_slice_from l start = [].
Proof.
  intros H. unfold py_slice_from.
  assert (E : (start <? 0) = false) by (apply Z.ltb_ge; lia).
  rewrite E. apply skipn_all2. lia.
Qed.

Lemma no_stage_execution_nil (w : world) : no_stage_execution w w [].
Proof. reflexivity. Qed.

Lemma no_stage_execution_app (w w1 w2 : world) (t1 t2 : list event) :
  no_stage_execution w w1 t1 -> no_stage_execution w1 w2 t2 ->
  no_stage_execution w w2 (t1 ++ t2).
Proof.
  unfold no_stage_execution. intros H1 H2. rewrite count_events_app. lia.
Qed.

Lemma train_count_quiet (t : list event) :
  Forall quiet_event t -> train_count t = 0%nat.
Proof.
  induction 1 as [|e t [_ He] _ IH]; [reflexivity|].
  unfold train_count in *. simpl. rewrite IH. destruct e; tauto.
Qed.

Section PastSchedule.

Variable env : Env.
Variable self : HivemindGRPOTrainer.

(** The run of [train_stages] when no stage remains from [start] on. *)
Lemma train_stages_past_schedule_run (round start : Z) (coord : bool)
    (w : world) :
  Z.of_nat (length (stages self)) <= start ->
  let x := train_stages env self round start coord w in
  outcome x = Raise UnboundLocalError /\
  cleanup_count (events x) = 1%nat /\
  count_events is_stage_execution (events x) = 0%nat /\
  pointer_writes (events x) = [].
Proof.
  intros Hlen. cbv zeta.
  pose proof (py_slice_from_past (stages self) start Hlen) as Hs.
  split; [|split; [|split]].
  - destruct (train_stages_decompose env self round start coord w)
      as (tail & -> & _ & Htail).
    rewrite Hs. cbn [stage_loop]. autorewrite with run. apply Htail.
  - destruct (train_stages_decompose env self round start coord w)
      as (tail & -> & _ & Htail).
    rewrite Hs. cbn [stage_loop]. autorewrite with run. cbn [app].
    apply Htail.
  - assert (H : respects no_stage_execution
                  (train_stages env self round start coord)).
    { unfold train_stages, cleanup. rewrite Hs. cbn [stage_loop].
      repeat respects_step no_stage_execution_nil no_stage_execution_app;
        reflexivity. }
    apply H.
  - destruct (train_stages_trace env self round start coord w)
      as (ts & tl & He & _ & Hq).
    destruct (train_stages_decompose env self round start coord w)
      as (tail & Hd & Hquiet & _).
    rewrite Hd, Hs. cbn [stage_loop]. autorewrite with run. cbn [app].
    apply pointer_writes_quiet. apply Hquiet.
Qed.

End PastSchedule.

(** X9: called with a start stage at or beyond the end of the schedule (or
    with an empty schedule), [train_stages] executes no stage and writes no
    pointer, runs [cleanup()] once, and then raises [UnboundLocalError] at
    [del trainer]. *)
Theorem train_stages_past_schedule
    (env : Env) (self : HivemindGRPOTrainer) (round start : Z) (coord : bool)
    (w : world) :
  Z.of_nat (length (stages self)) <= start ->
  let x := train_stages env self round start coord w in
  outcome x = Raise UnboundLocalError /\
  cleanup_count (events x) = 1%nat /\
  count_events is_stage_execution (events x) = 0%nat /\
  pointer_writes (events x) = [].
Proof. apply train_stages_past_schedule_run. Qed.

(** X10: the push to the hub cannot change how [train_stages] ends: for
    every behaviour of [trainer.push_to_hub], failure included, the call
    ends as it would otherwise, with the same train steps, the same pointer
    writes and the same number of runs of [cleanup()]. *)
Theorem train_stages_push_failure_swallowed
    (env : Env) (self : HivemindGRPOTrainer) (round start : Z) (coord : bool)
    (w : world) (push : nat -> option exn) :
  let x := train_stages (with_trainer_push_to_hub push env) self
             round start coord w in
  let y := train_stages env self round start coord w in
  outcome x = outcome y /\
  train_count (events x) = train_count (events y) /\
  pointer_writes (events x) = pointer_writes (events y) /\
  cleanup_count (events x) = cleanup_count (events y).
Proof.
  cbv zeta.
  destruct (train_stages_decompose (with_trainer_push_to_hub push env) self
              round start coord w) as (tail1 & -> & Hq1 & Ht1).
  destruct (train_stages_decompose env self round start coord w)
    as (tail2 & -> & Hq2 & Ht2).
  change (stage_loop (with_trainer_push_to_hub push env))
    with (stage_loop env).
  autorewrite with run. cbn [app].
  set (loop := stage_loop env self round start coord
                 (py_slice_from (stages self) start) 0 false
                 (with_round_num round w)).
  destruct (outcome loop) as [b|e|]; [|repeat split..].
  destruct (Ht1 b (final loop)) as (Hc1 & _ & Ho1).
  destruct (Ht2 b (final loop)) as (Hc2 & _ & Ho2).
  destruct (Hq1 b (final loop)) as (_ & _ & Hf1).
  destruct (Hq2 b (final loop)) as (_ & _ & Hf2).
  unfold train_count, cleanup_count in *.
  rewrite Ho1, Ho2, !pointer_writes_app, !count_events_app, Hc1, Hc2.
  rewrite (pointer_writes_quiet _ Hf1), (pointer_writes_quiet _ Hf2).
  pose proof (train_count_quiet _ Hf1) as T1.
  pose proof (train_count_quiet _ Hf2) as T2.
  unfold train_count in T1, T2. rewrite T1, T2. repeat split.
Qed.

(** * Further properties of [follower_train] *)

Section FollowerMore.

Variable env : Env.
Variable self : HivemindGRPOTrainer.
Variables check_interval log_timeout max_check_interval : Q.

Local Abbreviation body :=
  (follower_body env self check_interval log_timeout max_check_interval).
Local Abbreviation loop :=
  (follower_loop env self check_interval log_timeout max_check_interval).



(** The run of an iteration whose read of the pointer fails. *)
Lemma follower_body_fetch_failure (st : follower_state) (w : world) (e : exn) :
  get_round_and_stage env (S (tick w)) = inl e ->
  (0 <= check_interval)%Q ->
  let now := monotonic env (tick w) in
  let logged := Qlt_bool log_timeout (now - fetch_log_time st) in
  outcome (body st w) =
    Ok (Continue {| done_rounds := done_rounds st;
                    fetch_log_time :=
                      if logged then now else fetch_log_time st;
                    check_backoff := check_backoff st |}) /\
  events (body st w) =
    [ECall get_visible_maddrs; EGetRoundAndStage] ++
    (if logged then [ELog (LogCouldNotFetch e)] else []) ++
    [ESleep check_interval] /\
  final (body st w) = next_tick (next_tick w).
Proof.
  intros Hget Hci. cbv zeta. apply Qlt_bool_false_iff in Hci.
  unfold follower_body, call. autorewrite with run. cbn [tick next_tick].
  rewrite Hget. unfold when, log, sleep. rewrite Hci.
  destruct (Qlt_bool log_timeout _); autorewrite with run;
    destruct st; repeat split.
Qed.

(** The run of an iteration of the loop whose replay fails with an error
    that is not a dataset-generation error. *)
Lemma follower_loop_other_error (fuel : nat) (start_time : Q)
    (st : follower_state) (w : world) (round stage : Z) (e : exn) :
  let w3 := next_tick (next_tick (next_tick w)) in
  let first := train_stages env self round stage false w3 in
  Qlt_bool (monotonic env (tick w) - start_time) (train_timeout self) = true ->
  get_round_and_stage env (S (S (tick w))) = inr (round, stage) ->
  round ∉ done_rounds st ->
  outcome first = Raise e ->
  is_dataset_generation e = false ->
  outcome (loop (S fuel) start_time st w) = Raise e /\
  events (loop (S fuel) start_time st w) =
    [ECall get_visible_maddrs; EGetRoundAndStage;
     ELog (LogJoining round stage)] ++ events first.
Proof.
  cbv zeta. intros Hclock Hget Hdone Hfirst He.
  cbn [follower_loop]. unfold follower_body, follower_join, call, log.
  autorewrite with run. rewrite Hclock. autorewrite with run.
  change (tick (next_tick (next_tick w))) with (S (S (tick w))).
  rewrite Hget. rewrite (bool_decide_eq_false_2 _ Hdone).
  autorewrite with run. rewrite Hfirst, He. cbn [app].
  rewrite !app_nil_r. split; reflexivity.
Qed.

End FollowerMore.

(** X11: a read of the pointer that fails never ends the follower loop
    (for a polling interval that is not negative): the iteration runs no
    stage, sleeps [check_interval] and continues with the same rounds done
    and the same backoff.  It logs the failure only when more than
    [log_timeout] has passed since the failure logged last, and then
    remembers the time of this one. *)
Theorem follower_fetch_failure_not_fatal
    (env : Env) (self : HivemindGRPOTrainer)
    (check_interval log_timeout max_check_interval : Q)
    (st : follower_state) (w : world) (e : exn) :
  get_round_and_stage env (S (tick w)) = inl e ->
  (0 <= check_interval)%Q ->
  let x := follower_body env self check_interval log_timeout
             max_check_interval st w in
  let now := monotonic env (tick w) in
  let logged := Qlt_bool log_timeout (now - fetch_log_time st) in
  outcome x =
    Ok (Continue {| done_rounds := done_rounds st;
                    fetch_log_time :=
                      if logged then now else fetch_log_time st;
                    check_backoff := check_backoff st |}) /\
  events x =
    [ECall get_visible_maddrs; EGetRoundAndStage] ++
    (if logged then [ELog (LogCouldNotFetch e)] else []) ++
    [ESleep check_interval] /\
  final x = next_tick (next_tick w).
Proof. apply follower_body_fetch_failure. Qed.

(** X12: an error of the replay that is not a dataset-generation error is
    never retried: whatever the observed stage, it leaves the follower loop
    at once, and nothing is run after the failed replay. *)
Theorem follower_other_error_no_retry
    (env : Env) (self : HivemindGRPOTrainer)
    (check_interval log_timeout max_check_interval : Q)
    (fuel : nat) (start_time : Q) (st : follower_state) (w : world)
    (round stage : Z) (e : exn) :
  let w3 := next_tick (next_tick (next_tick w)) in
  let first := train_stages env self round stage false w3 in
  let x := follower_loop env self check_interval log_timeout
             max_check_interval (S fuel) start_time st w in
  Qlt_bool (monotonic env (tick w) - start_time) (train_timeout self) = true ->
  get_round_and_stage env (S (S (tick w))) = inr (round, stage) ->
  round ∉ done_rounds st ->
  outcome first = Raise e ->
  is_dataset_generation e = false ->
  outcome x = Raise e /\
  events x =
    [ECall get_visible_maddrs; EGetRoundAndStage;
     ELog (LogJoining round stage)] ++ events first.
Proof. apply follower_loop_other_error. Qed.

(** X13: a follower that reads a stage at or beyond the end of the schedule
    for a round it has not done runs no stage and leaves the loop with the
    [UnboundLocalError] of [train_stages]; the replay from stage 0 is not
    attempted. *)
Theorem follower_past_schedule
    (env : Env) (self : HivemindGRPOTrainer)
    (check_interval log_timeout max_check_interval : Q)
    (fuel : nat) (start_time : Q) (st : follower_state) (w : world)
    (round stage : Z) :
  let x := follower_loop env self check_interval log_timeout
             max_check_interval (S fuel) start_time st w in
  Qlt_bool (monotonic env (tick w) - start_time) (train_timeout self) = true ->
  get_round_and_stage env (S (S (tick w))) = inr (round, stage) ->
  round ∉ done_rounds st ->
  Z.of_nat (length (stages self)) <= stage ->
  outcome x = Raise UnboundLocalError /\
  count_events is_stage_execution (events x) = 0%nat /\
  cleanup_count (events x) = 1%nat.
Proof.
  cbv zeta. intros Hclock Hget Hdone Hlen.
  destruct (train_stages_past_schedule_run env self round stage false
              (next_tick (next_tick (next_tick w))) Hlen)
    as (Ho & Hc & Hs & _).
  cbv zeta in Ho, Hc, Hs.
  destruct (follower_loop_other_error env self check_interval log_timeout
              max_check_interval fuel start_time st w round stage
              UnboundLocalError Hclock Hget Hdone Ho eq_refl) as [Hx He].
  rewrite Hx, He. unfold cleanup_count in *.
  rewrite !count_events_app, Hs, Hc. repeat split.
Qed.


(** X15: an iteration that observes round [max_rounds - 1] and does not
    fail is the last one, also when that round was done before: the loop
    returns without polling again. *)
Theorem follower_returns_at_last_round
    (env : Env) (self : HivemindGRPOTrainer)
    (check_interval log_timeout max_check_interval : Q)
    (fuel : nat) (start_time : Q) (st : follower_state) (w : world)
    (r s : Z) (c : loop_ctl) :
  let b := follower_body env self check_interval log_timeout
             max_check_interval st (next_tick w) in
  let x := follower_loop env self check_interval log_timeout
             max_check_interval (S fuel) start_time st w in
  Qlt_bool (monotonic env (tick w) - start_time) (train_timeout self) = true ->
  get_round_and_stage env (S (S (tick w))) = inr (r, s) ->
  r = max_rounds self - 1 ->
  outcome b = Ok c ->
  c = Return /\ outcome x = Ok tt /\ events x = events b.
Proof.
  cbv zeta. intros Hclock Hget Hr Hb.
  assert (Hc : c = Return).
  { revert Hb. unfold follower_body, call. autorewrite with run.
    change (tick (next_tick (next_tick w))) with (S (S (tick w))).
    rewrite Hget. rewrite outcome_bind.
    assert (E : (r =? max_rounds self - 1) = true) by (apply Z.eqb_eq, Hr).
    rewrite E.
    destruct (bool_decide (r ∈ done_rounds st)); cbv iota;
      [destruct (outcome (follower_idle _ _ _ _))
      |destruct (outcome (follower_join _ _ _ _ _ _ _))];
      autorewrite with run; intros H; inversion H; reflexivity. }
  subst c. split; [reflexivity|].
  cbn [follower_loop].
  rewrite outcome_bind, events_bind, outcome_ask, final_ask, events_ask, Hclock.
  rewrite outcome_bind, events_bind, Hb. autorewrite with run.
  rewrite app_nil_r. split; reflexivity.
Qed.

(** * Further properties of the loss hook and of the leaderboard *)

(** X16: on a step of the cadence, when the outputs of the node hold no
    question, the loss hook raises [KeyError] before it stores anything;
    the state is untouched, and a coordinator does not publish the
    leaderboard on that step. *)
Theorem compute_loss_missing_question
    (env : Env) (self : HivemindGRPOTrainer) (w : world) :
  (state_global_step w mod CADENCE_OF_UPDATE_STEPS =? 0) = true ->
  node_outputs w !! "question"%string = None ->
  let x := compute_loss env self w in
  outcome x = Raise KeyError /\
  events x = [ECall super_compute_loss] /\
  final x = w.
Proof.
  intros Hc Hq. cbv zeta. unfold compute_loss, call.
  autorewrite with run. rewrite Hc, Hq. autorewrite with run.
  repeat split.
Qed.

(** X17: off the cadence the loss hook stores neither the outputs of the
    node nor its reward, and the cumulative reward it keeps and the round
    and stage of the node are unchanged. *)
Theorem compute_loss_results_gated
    (env : Env) (self : HivemindGRPOTrainer) (w : world) :
  (state_global_step w mod CADENCE_OF_UPDATE_STEPS =? 0) = false ->
  let x := compute_loss env self w in
  count_events is_result_store (events x) = 0%nat /\
  self_stage_rewards (final x) = self_stage_rewards w /\
  node_round_num (final x) = node_round_num w /\
  node_stage_num (final x) = node_stage_num w.
Proof.
  intros Hc. cbv zeta. unfold compute_loss, publish_leaderboard, expiration,
    call, log.
  autorewrite with run. rewrite Hc. autorewrite with run.
  destruct (is_coordinator self); autorewrite with run; [|repeat split].
  destruct (truthy (get_dht_value env (tick w) _)); autorewrite with run;
    repeat split.
Qed.

(** X18: when no reward of the snapshot is NaN, the first entry of the
    leaderboard is an entry of the snapshot whose reward no other reward
    exceeds, and the leaderboard is empty only for an empty snapshot. *)
Theorem leaderboard_leader_is_best (snapshot : list (string * pyfloat)) :
  nan_free snapshot ->
  match py_sorted_reverse snapshot with
  | [] => snapshot = []
  | top :: _ =>
      In top snapshot /\
      Forall (fun entry => float_le (snd entry) (snd top)) snapshot
  end.
Proof.
  intros Hnan.
  pose proof (py_sorted_reverse_perm snapshot) as Hp.
  pose proof (py_sorted_reverse_sorted snapshot Hnan) as Hs.
  assert (Hn : nan_free (py_sorted_reverse snapshot))
    by (eapply nan_free_perm; [symmetry; exact Hp | exact Hnan]).
  destruct (py_sorted_reverse snapshot) as [|top rest].
  - apply Permutation_nil in Hp. exact Hp.
  - split.
    + apply (Permutation_in top Hp). left. reflexivity.
    + apply StronglySorted_inv in Hs. destruct Hs as [_ Hs].
      apply Forall_cons in Hn. destruct Hn as [Ht _].
      rewrite Forall_forall in Hs. apply Forall_forall. intros e He.
      apply list_elem_of_In in He. symmetry in Hp.
      apply (Permutation_in e Hp) in He. destruct He as [<- | He].
      * right. destruct (snd top); simpl; try discriminate; auto.
        apply Qeq_refl.
      * apply list_elem_of_In in He. apply Hs in He.
        destruct He as [H | [H _]]; [left; exact H|].
        right. apply float_same_sym, H.
Qed.

(** X19: building the leaderboard again from a leaderboard changes
    nothing, for a snapshot with distinct worker keys, as a dictionary
    has, and without a NaN reward. *)
Theorem leaderboard_idempotent (snapshot : list (string * pyfloat)) :
  NoDup (map fst snapshot) ->
  nan_free snapshot ->
  py_sorted_reverse (py_sorted_reverse snapshot) = py_sorted_reverse snapshot.
Proof.
  intros Hnd Hnan. apply py_sorted_reverse_unique.
  - eapply nan_free_perm; [symmetry; apply py_sorted_reverse_perm | exact Hnan].
  - assert (P : Permutation (map fst (py_sorted_reverse snapshot))
                            (map fst snapshot))
      by apply Permutation_map, py_sorted_reverse_perm.
    rewrite P. exact Hnd.
  - apply py_sorted_reverse_perm.
Qed.

(** * Further instances *)

(** X6 with a timeout of zero. *)
Lemma wait_for_expired_witness :
  let x := wait_for calm_env Z answers_later 10 0 3 fresh_world in
  outcome x = Raise UnboundLocalError /\
  events x = [] /\
  final x = next_tick (next_tick fresh_world).
Proof.
  cbv zeta.
  apply (wait_for_expired calm_env Z answers_later 10 0 2 fresh_world).
  vm_compute. discriminate.
Defined.

(** X7 with an answer at the second call. *)
Lemma wait_for_first_result_witness :
  exists k : nat,
    events (wait_for calm_env Z answers_later 10 30 5 fresh_world)
    = repeat (ESleep 10) k /\
    (forall j : nat, (j < k)%nat ->
       answers_later (tick fresh_world + 2 + 2 * j)%nat = inr None) /\
    answers_later (tick fresh_world + 2 + 2 * k)%nat = inr (Some 42).
Proof.
  apply (wait_for_first_result calm_env Z answers_later 10 30 5 fresh_world
           (Some 42)).
  reflexivity.
Defined.

(** X8 with two transient failures before the success. *)
Lemma train_stage_and_save_after_retries_witness :
  let x := train_stage_and_save flaky_env (swarm_trainer false [ok_stage] 1)
             fresh_world in
  train_count (events x) = 3%nat /\
  cleanup_count (events x) = 2%nat /\
  count_events (is_sleep 5) (events x) = 2%nat /\
  outcome x = Ok tt /\
  count_events is_save_model (events x) = 1%nat /\
  count_events is_save_pretrained (events x) = 1%nat.
Proof.
  cbv zeta.
  apply (train_stage_and_save_after_retries flaky_env
           (swarm_trainer false [ok_stage] 1) fresh_world 2).
  - unfold MAX_TRAIN_FAILS. lia.
  - intros [|[|i]] Hi; [reflexivity | reflexivity | lia].
  - reflexivity.
Defined.

(** X9 with a schedule of one stage entered at stage 1. *)
Lemma train_stages_past_schedule_witness :
  let x := train_stages calm_env (swarm_trainer false [ok_stage] 1)
             0 1 false fresh_world in
  outcome x = Raise UnboundLocalError /\
  cleanup_count (events x) = 1%nat /\
  count_events is_stage_execution (events x) = 0%nat /\
  pointer_writes (events x) = [].
Proof.
  cbv zeta.
  apply (train_stages_past_schedule calm_env
           (swarm_trainer false [ok_stage] 1) 0 1 false fresh_world).
  simpl. lia.
Defined.

(** X11 with the default intervals, on a first failure that is not logged. *)
Lemma follower_fetch_failure_not_fatal_witness :
  let x := follower_body deaf_env (swarm_trainer false [ok_stage] 5)
             5 10 300 (follower_init 5 0) fresh_world in
  outcome x = Ok (Continue (follower_init 5 0)) /\
  events x = [ECall get_visible_maddrs; EGetRoundAndStage; ESleep 5] /\
  final x = next_tick (next_tick fresh_world).
Proof.
  cbv zeta.
  apply (follower_fetch_failure_not_fatal deaf_env
           (swarm_trainer false [ok_stage] 5) 5 10 300 (follower_init 5 0)
           fresh_world (OtherError 1)).
  - reflexivity.
  - vm_compute. discriminate.
Defined.

(** X12 with a train step that crashes at round 2, stage 3. *)
Lemma follower_other_error_no_retry_witness :
  let self := swarm_trainer false ok_schedule 5 in
  let x := follower_loop crashing_env self 5 10 300 1 0 (follower_init 5 0)
             fresh_world in
  outcome x = Raise (OtherError 7) /\
  events x =
    [ECall get_visible_maddrs; EGetRoundAndStage; ELog (LogJoining 2 3)] ++
    events (train_stages crashing_env self 2 3 false
              (next_tick (next_tick (next_tick fresh_world)))).
Proof.
  cbv zeta.
  apply (follower_other_error_no_retry crashing_env
           (swarm_trainer false ok_schedule 5) 5 10 300 0 0
           (follower_init 5 0) fresh_world 2 3 (OtherError 7)).
  - reflexivity.
  - reflexivity.
  - apply not_elem_of_empty.
  - reflexivity.
  - reflexivity.
Defined.

(** X13 with a schedule of one stage and a pointer at stage 3. *)
Lemma follower_past_schedule_witness :
  let x := follower_loop late_env (swarm_trainer false [ok_stage] 5)
             5 10 300 1 0 (follower_init 5 0) fresh_world in
  outcome x = Raise UnboundLocalError /\
  count_events is_stage_execution (events x) = 0%nat /\
  cleanup_count (events x) = 1%nat.
Proof.
  cbv zeta.
  apply (follower_past_schedule late_env (swarm_trainer false [ok_stage] 5)
           5 10 300 0 0 (follower_init 5 0) fresh_world 2 3).
  - reflexivity.
  - reflexivity.
  - apply not_elem_of_empty.
  - simpl. lia.
Defined.


(** X15 with a single round: the first iteration is the last. *)
Lemma follower_returns_at_last_round_witness :
  let self := swarm_trainer false [ok_stage] 1 in
  let x := follower_loop calm_env self 5 10 300 1 0 (follower_init 5 0)
             fresh_world in
  Return = Return /\
  outcome x = Ok tt /\
  events x = events (follower_body calm_env self 5 10 300 (follower_init 5 0)
                       (next_tick fresh_world)).
Proof.
  cbv zeta.
  apply (follower_returns_at_last_round calm_env
           (swarm_trainer false [ok_stage] 1) 5 10 300 0 0
           (follower_init 5 0) fresh_world 0 0 Return).
  - reflexivity.
  - reflexivity.
  - reflexivity.
  - reflexivity.
Defined.

(** X16 on a node without outputs, at step 0. *)
Lemma compute_loss_missing_question_witness :
  let x := compute_loss calm_env (swarm_trainer true [ok_stage] 1)
             fresh_world in
  outcome x = Raise KeyError /\
  events x = [ECall super_compute_loss] /\
  final x = fresh_world.
Proof.
  cbv zeta.
  apply (compute_loss_missing_question calm_env
           (swarm_trainer true [ok_stage] 1) fresh_world).
  - reflexivity.
  - reflexivity.
Defined.

(** X17 at step 1. *)
Lemma compute_loss_results_gated_witness :
  let w := with_global_step 1 fresh_world in
  let x := compute_loss calm_env (swarm_trainer true [ok_stage] 1) w in
  count_events is_result_store (events x) = 0%nat /\
  self_stage_rewards (final x) = self_stage_rewards w /\
  node_round_num (final x) = node_round_num w /\
  node_stage_num (final x) = node_stage_num w.
Proof.
  cbv zeta.
  apply (compute_loss_results_gated calm_env
           (swarm_trainer true [ok_stage] 1) (with_global_step 1 fresh_world)).
  reflexivity.
Defined.

(** X19 on the sample of three workers. *)
Lemma leaderboard_idempotent_witness :
  py_sorted_reverse (py_sorted_reverse sample_rewards)
  = py_sorted_reverse sample_rewards.
Proof.
  apply (leaderboard_idempotent sample_rewards).
  - apply (bool_decide_unpack _). vm_compute. exact I.
  - repeat constructor.
Defined.

(** X18 on the sample of three workers: bert, with reward 2, leads. *)
Lemma leaderboard_leader_is_best_witness :
  nan_free sample_rewards /\
  match py_sorted_reverse sample_rewards with
  | [] => sample_rewards = []
  | top :: _ =>
      In top sample_rewards /\
      Forall (fun entry => float_le (snd entry) (snd top)) sample_rewards
  end.
Proof.
  split; [repeat constructor|].
  apply (leaderboard_leader_is_best sample_rewards). repeat constructor.
Defined.

(** X21: the coordinator has no fallback: an error of [train_stages] in a
    round, a dataset-generation error included, ends [coordinator_train]
    with that error, and no further round is announced. *)
Theorem coordinator_round_failure_is_fatal
    (env : Env) (self : HivemindGRPOTrainer) (fuel : nat) (start_time : Q)
    (round : Z) (w : world) (e : exn) :
  let x := coordinator_loop env self (S fuel) start_time round w in
  let stage_run := train_stages env self round 0 true (next_tick w) in
  round < max_rounds self ->
  Qlt_bool (monotonic env (tick w) - start_time) (train_timeout self) = true ->
  outcome stage_run = Raise e ->
  outcome x = Raise e /\
  events x =
    ELog (LogStartingRound round) :: ECall get_visible_maddrs ::
    events stage_run /\
  started_rounds (events x) = [round].
Proof.
  cbv zeta. intros Hr Hclock Hrun. cbn [coordinator_loop].
  assert (E : (round <? max_rounds self) = true) by (apply Z.ltb_lt, Hr).
  rewrite E. unfold log, call. autorewrite with run. rewrite Hclock.
  autorewrite with run. rewrite Hrun. cbn [app]. rewrite app_nil_r.
  split; [reflexivity|]. split; [reflexivity|].
  cbn [started_rounds].
  destruct (train_stages_runner env self true round 0 (next_tick w))
    as [_ Hts].
  apply stage_runner_only_rounds in Hts. destruct Hts as [-> _].
  reflexivity.
Qed.

(** X21 on a schedule whose datasets cannot be built. *)
Lemma coordinator_round_failure_is_fatal_witness :
  let self := swarm_trainer true broken_schedule 5 in
  let x := coordinator_loop calm_env self 6 0 0 fresh_world in
  outcome x = Raise DatasetGenerationError /\
  events x =
    ELog (LogStartingRound 0) :: ECall get_visible_maddrs ::
    events (train_stages calm_env self 0 0 true (next_tick fresh_world)) /\
  started_rounds (events x) = [0].
Proof.
  cbv zeta.
  apply (coordinator_round_failure_is_fatal calm_env
           (swarm_trainer true broken_schedule 5) 5 0 0 fresh_world
           DatasetGenerationError).
  - reflexivity.
  - reflexivity.
  - reflexivity.
Defined.
